(** * Kestra-workflow helper scripts: a shallow embedding

    Two scripts are embedded:
    - [encode-secrets.py]          (module [Encoder]), which base64-encodes
      seven named entries of the [.env] file and appends them to that file;
    - [scripts/create-test-data.py] (module [Uploader]), which generates
      synthetic sensor readings and uploads three CSV objects.

    Conventions of the embedding.
    - A Python [str] is the list of its Unicode code points ([list N]);
      [bytes] is a list of numbers below 256.
    - The [.env] file is the text that Python's text layer shows for it
      (UTF-8 decoded, newlines translated to LF); [None] is a missing file.
    - Python floats are exact rationals ([Q]); where a value is computed
      at a concrete input, the draws are dyadic numbers on which binary64
      arithmetic is exact too.
    - A [datetime] is its number of microseconds since 0001-01-01T00:00. *)

From Stdlib Require Import ZArith NArith QArith Qround Lia Lqa List Ascii
  String.
From stdpp Require Import base option list gmap.

(** ** Python strings *)

Module Py.
Local Open Scope N_scope.

Abbreviation str := (list N).
Abbreviation bytes := (list N).

(** A string literal of the source, as code points. *)
Definition lit (s : string) : str := map N_of_ascii (list_ascii_of_string s).

(** [str.isspace] for one code point (CPython's [_PyUnicode_IsWhitespace]). *)
Definition isspace (c : N) : bool :=
  ((9 <=? c) && (c <=? 13)) || ((28 <=? c) && (c <=? 32))
  || (c =? 133) || (c =? 160) || (c =? 5760)
  || ((8192 <=? c) && (c <=? 8202))
  || (c =? 8232) || (c =? 8233) || (c =? 8239) || (c =? 8287) || (c =? 12288).

Fixpoint lstrip (s : str) : str :=
  match s with
  | [] => []
  | c :: s' => if isspace c then lstrip s' else s
  end.

Fixpoint rstrip (s : str) : str :=
  match s with
  | [] => []
  | c :: s' =>
      match rstrip s' with
      | [] => if isspace c then [] else [c]
      | r => c :: r
      end
  end.

(** [s.strip()] *)
Definition strip (s : str) : str := rstrip (lstrip s).

(** [s.startswith(p)] *)
Fixpoint startswith (p s : str) : bool :=
  match p, s with
  | [], _ => true
  | _ :: _, [] => false
  | a :: p', b :: s' => (a =? b) && startswith p' s'
  end.

(** [s.endswith(p)] *)
Definition endswith (p s : str) : bool := startswith (rev p) (rev s).

(** [p in s] (substring test) *)
Fixpoint contains (p s : str) : bool :=
  startswith p s || match s with [] => false | _ :: s' => contains p s' end.

(** [s.split(sep, 1)] for a one-character separator: [None] stands for the
    one-element result (no separator in [s]), [Some (a, b)] for [[a, b]]. *)
Fixpoint split1 (sep : N) (s : str) : option (str * str) :=
  match s with
  | [] => None
  | c :: s' =>
      if c =? sep then Some ([], s')
      else match split1 sep s' with
           | Some (a, b) => Some (c :: a, b)
           | None => None
           end
  end.

(** Iterating over a text file: the lines, each with its terminating LF
    (code point 10); a last line without LF is yielded as it is. *)
Fixpoint readlines (s : str) : list str :=
  match s with
  | [] => []
  | c :: s' =>
      if c =? 10 then [c] :: readlines s'
      else match readlines s' with
           | [] => [[c]]
           | l :: ls => (c :: l) :: ls
           end
  end.

(** [f'{n:03d}'] for a non-negative integer. *)
Definition digit (d : N) : N := 48 + d.

Fixpoint decimal_digits (fuel : nat) (n : N) (acc : str) : str :=
  match fuel with
  | O => acc
  | S fuel' =>
      let acc' := digit (n mod 10) :: acc in
      if n / 10 =? 0 then acc' else decimal_digits fuel' (n / 10) acc'
  end.

Definition format_d (n : N) : str := decimal_digits (S (N.to_nat n)) n [].

Definition format_03d (n : N) : str :=
  let ds := format_d n in
  repeat (digit 0) (3 - length ds)%nat ++ ds.

(** *** Lines *)

(** A text without a line feed, and a line with its line feed. *)
Definition lf_free (s : str) : Prop := Forall (fun c => c <> 10) s.

Definition terminated (body : str) : str := body ++ [10].

(** The last, unterminated line of a file as a list of lines. *)
Definition open_line (tail : str) : list str :=
  match tail with [] => [] | _ :: _ => [tail] end.

End Py.

(** ** UTF-8 ([str.encode('utf-8')], [bytes.decode('utf-8')]) *)

Module Utf8.
Import Py.
Local Open Scope N_scope.

(** Unicode scalar values: what a [str] read from a UTF-8 file holds. *)
Definition scalar (c : N) : bool :=
  (c <? 55296) || ((57344 <=? c) && (c <? 1114112)).

Definition valid_str (s : str) : Prop := forallb scalar s = true.

Definition encode_char (c : N) : bytes :=
  if c <? 128 then [c]
  else if c <? 2048 then [192 + c / 64; 128 + c mod 64]
  else if c <? 65536 then
    [224 + c / 4096; 128 + (c / 64) mod 64; 128 + c mod 64]
  else
    [240 + c / 262144; 128 + (c / 4096) mod 64;
     128 + (c / 64) mod 64; 128 + c mod 64].

(** [s.encode('utf-8')] *)
Definition encode (s : str) : bytes := flat_map encode_char s.

Definition continuation (b : N) : bool := (128 <=? b) && (b <? 192).

(** [b.decode('utf-8')], strict: [None] stands for [UnicodeDecodeError]. *)
Fixpoint decode (bs : bytes) : option str :=
  match bs with
  | [] => Some []
  | b0 :: r0 =>
      if b0 <? 128 then cons b0 <$> decode r0
      else if (194 <=? b0) && (b0 <? 224) then
        match r0 with
        | b1 :: r1 =>
            if continuation b1
            then cons ((b0 - 192) * 64 + (b1 - 128)) <$> decode r1
            else None
        | _ => None
        end
      else if (224 <=? b0) && (b0 <? 240) then
        match r0 with
        | b1 :: b2 :: r2 =>
            let c := (b0 - 224) * 4096 + (b1 - 128) * 64 + (b2 - 128) in
            if continuation b1 && continuation b2
               && (2048 <=? c) && scalar c
            then cons c <$> decode r2
            else None
        | _ => None
        end
      else if (240 <=? b0) && (b0 <? 245) then
        match r0 with
        | b1 :: b2 :: b3 :: r3 =>
            let c := (b0 - 240) * 262144 + (b1 - 128) * 4096
                     + (b2 - 128) * 64 + (b3 - 128) in
            if continuation b1 && continuation b2 && continuation b3
               && (65536 <=? c) && scalar c
            then cons c <$> decode r3
            else None
        | _ => None
        end
      else None
  end.

End Utf8.

(** ** Base64 ([base64.b64encode], and the standard decoder) *)

Module Base64.
Import Py.
Local Open Scope N_scope.

Definition alphabet : str :=
  lit "ABCDEFGHIJKLMNOPQRSTUVWXYZabcdefghijklmnopqrstuvwxyz0123456789+/".

Definition b64char (i : N) : N := nth (N.to_nat i) alphabet 0.

Definition pad : N := 61.

(** [base64.b64encode]: three bytes make four characters; a last group of
    one or two bytes is padded with [=]. *)
Fixpoint b64encode (bs : bytes) : bytes :=
  match bs with
  | [] => []
  | [a] =>
      [b64char (a / 4); b64char ((a mod 4) * 16); pad; pad]
  | [a; b] =>
      [b64char (a / 4); b64char ((a mod 4) * 16 + b / 16);
       b64char ((b mod 16) * 4); pad]
  | a :: b :: c :: rest =>
      b64char (a / 4) :: b64char ((a mod 4) * 16 + b / 16)
      :: b64char ((b mod 16) * 4 + c / 64) :: b64char (c mod 64)
      :: b64encode rest
  end.

(** The value of a character of the alphabet (RFC 4648, table 1). *)
Definition b64index (c : N) : option N :=
  if (65 <=? c) && (c <=? 90) then Some (c - 65)
  else if (97 <=? c) && (c <=? 122) then Some (c - 97 + 26)
  else if (48 <=? c) && (c <=? 57) then Some (c - 48 + 52)
  else if c =? 43 then Some 62
  else if c =? 47 then Some 63
  else None.

Definition decode_quad (c1 c2 c3 c4 : N) : option bytes :=
  i1 ← b64index c1; i2 ← b64index c2; i3 ← b64index c3; i4 ← b64index c4;
  Some [i1 * 4 + i2 / 16; (i2 mod 16) * 16 + i3 / 4; (i3 mod 4) * 64 + i4].

Definition decode_last (c1 c2 c3 c4 : N) : option bytes :=
  if c4 =? pad then
    if c3 =? pad then
      i1 ← b64index c1; i2 ← b64index c2; Some [i1 * 4 + i2 / 16]
    else
      i1 ← b64index c1; i2 ← b64index c2; i3 ← b64index c3;
      Some [i1 * 4 + i2 / 16; (i2 mod 16) * 16 + i3 / 4]
  else decode_quad c1 c2 c3 c4.

(** The standard base64 decoder (RFC 4648, section 4) that the round trip
    is measured against; [None] is a malformed input. It is not part of
    the scripts. *)
Fixpoint b64decode (s : str) : option bytes :=
  match s with
  | [] => Some []
  | c1 :: c2 :: c3 :: c4 :: rest =>
      match rest with
      | [] => decode_last c1 c2 c3 c4
      | _ :: _ =>
          q ← decode_quad c1 c2 c3 c4; r ← b64decode rest; Some (q ++ r)
      end
  | _ => None
  end.

(** Bytes, ASCII bytes, and the 64 values of a base64 character. *)
Definition is_byte (b : N) : Prop := b < 256.
Definition is_ascii (b : N) : Prop := b < 128.
Definition sextets : list N := map N.of_nat (seq 0 64).

End Base64.


(** ** encode-secrets.py *)

Module Encoder.
Import Py.
Local Open Scope N_scope.

(** What the script can observe and change: the [.env] file of the working
    directory ([None] when it does not exist) and the lines printed. *)
Record world := World { env_file : option str; stdout : list str }.

Definition print (line : str) (w : world) : world :=
  World (env_file w) (stdout w ++ [line]).

(** [with open('.env', 'a') as f: f.write(text)] *)
Definition append_env (text : str) (w : world) : world :=
  World (Some (default [] (env_file w) ++ text)) (stdout w).

(** [encode_secret]: the base64 text is ASCII, so its [decode('utf-8')]
    cannot raise (lemma [encode_secret_decodes]); the default is unused. *)
Definition encode_secret (secret : str) : str :=
  default [] (Utf8.decode (Base64.b64encode (Utf8.encode secret))).

Definition truthy (s : str) : bool :=
  match s with [] => false | _ :: _ => true end.

(** What one line of the file adds to the dictionary, if anything:
    [line.strip()], the test of the [if], and [line.split('=', 1)]. *)
Definition entry_of_line (line : str) : option (str * str) :=
  let line := strip line in
  if truthy line && negb (startswith (lit "#") line)
     && contains (lit "=") line
  then split1 61 line
  else None.

(** The body of the [for line in f] loop: [env_vars[key] = value]. *)
Definition parse_line (env_vars : gmap str str) (line : str) : gmap str str :=
  match entry_of_line line with
  | Some (key, value) => <[key := value]> env_vars
  | None => env_vars
  end.

(** The dictionary that [load_env_file] builds from the text of the file. *)
Definition parse_env (text : str) : gmap str str :=
  foldl parse_line ∅ (readlines text).

Definition load_env_file (w : world) : option (gmap str str) * world :=
  match env_file w with
  | None => (None, print (lit "File .env not found!") w)
  | Some text => (Some (parse_env text), w)
  end.

Definition secrets_to_encode : list str :=
  [ lit "AWS_ACCESS_KEY_ID"; lit "AWS_SECRET_ACCESS_KEY"; lit "AWS_REGION";
    lit "CLICKHOUSE_USER"; lit "CLICKHOUSE_PASSWORD"; lit "ES_USER";
    lit "ES_PASSWORD" ].

(** The line written to the file for one secret, without and with its
    line feed. *)
Definition b64_entry (secret_name encoded_value : str) : str :=
  secret_name ++ lit "_B64='" ++ encoded_value ++ lit "'".

Definition b64_line (secret_name encoded_value : str) : str :=
  b64_entry secret_name encoded_value ++ [10].

(** The two lines printed for a secret. *)
Definition encoded_report (secret_name encoded_value : str) : str :=
  secret_name ++ lit "_B64=" ++ encoded_value.

Definition not_found_report (secret_name : str) : str :=
  secret_name ++ lit " not found in .env file".

(** The body of the [for secret_name in secrets_to_encode] loop. *)
Definition encode_one (env_vars : gmap str str) (w : world)
    (secret_name : str) : world :=
  match env_vars !! secret_name with
  | Some original_value =>
      let encoded_value := encode_secret original_value in
      let w := print (encoded_report secret_name encoded_value) w in
      append_env (b64_line secret_name encoded_value) w
  | None => print (not_found_report secret_name) w
  end.

Definition main (w : world) : world :=
  let '(env_vars, w) := load_env_file w in
  match env_vars with
  | None => w
  | Some env_vars =>
      if (size env_vars =? 0)%nat then w
      else foldl (encode_one env_vars) w secrets_to_encode
  end.

(** A run on a given file, from a silent console. *)
Definition run (file : option str) : world := main (World file []).

(** *** Notions used to state what a run does *)

(** Whether a name is a key of the dictionary. *)
Definition has_key (env_vars : gmap str str) (name : str) : bool :=
  match env_vars !! name with Some _ => true | None => false end.

(** The target keys that the dictionary has, in the order of the list. *)
Definition present (env_vars : gmap str str) : list str :=
  List.filter (has_key env_vars) secrets_to_encode.

(** The entry of a present key, and the lines that a run appends. *)
Definition entry_for (env_vars : gmap str str) (name : str) : str :=
  b64_entry name (encode_secret (default [] (env_vars !! name))).

Definition appended (env_vars : gmap str str) : list str :=
  map (fun name => entry_for env_vars name ++ [10]) (present env_vars).

(** The line printed for a name of the list. *)
Definition report (env_vars : gmap str str) (name : str) : str :=
  match env_vars !! name with
  | Some value => encoded_report name (encode_secret value)
  | None => not_found_report name
  end.

(** The number of line feeds of a text: its number of terminated lines. *)
Definition line_feeds (text : str) : nat :=
  length (List.filter (N.eqb 10) text).

(** The key that a line sets, if it sets one, from the line and from the
    stripped line. *)
Definition key_of_line (line : str) : option str := fst <$> entry_of_line line.

Definition key_of_stripped (s : str) : option str :=
  if truthy s && negb (startswith (lit "#") s) then fst <$> split1 61 s
  else None.

Definition sets_key (target : str) (line : str) : Prop :=
  key_of_line line = Some target.

(** What the proofs use of the name of a target key: it starts with a
    character that is neither white space nor [#], it has no [=] and no
    line feed, and it does not end in [4]. *)
Definition target_name_ok (name : str) : bool :=
  match name with
  | c :: _ => negb (isspace c) && negb (c =? 35)
  | [] => false
  end
  && match split1 61 (name ++ lit "_B64") with
     | None => true
     | Some _ => false
     end
  && negb (List.last name 0 =? 52)
  && forallb (fun c => negb (c =? 10)) name.

(** A key as it can stand before [=] on a line: it has no [=] and no line
    feed, and it does not start with white space or with [#]. *)
Definition plain_key (k : str) : bool :=
  match split1 61 k with None => true | Some _ => false end
  && forallb (fun c => negb (c =? 10)) k
  && match k with
     | [] => true
     | c :: _ => negb (isspace c) && negb (c =? 35)
     end.

(** A line [KEY=VALUE] of the file, with white space before the key. *)
Definition entry_line (ws k v : str) : str := ws ++ k ++ [61] ++ v ++ [10].

(** The value that a later run reads for a written entry: the encoded
    value between its quotes. *)
Definition quoted (encoded_value : str) : str :=
  [39] ++ encoded_value ++ [39].

(** A character of a base64 text: one of the alphabet, or the padding. *)
Definition b64_symbol (c : N) : Prop := In c Base64.alphabet \/ c = Base64.pad.

(** The length of the base64 text of [n] bytes. *)
Definition b64_length (n : nat) : nat := (4 * ((n + 2) / 3))%nat.

(** The frame of a run together with an unconditional report: the file
    after the run is the original text and the lines of the present target
    keys, and every absent target key is reported as not found. *)
Definition frame_and_reports (text : str) : Prop :=
  let env_vars := parse_env text in
  let w := run (Some text) in
  env_file w = Some (text ++ concat (appended env_vars))
  /\ (forall name, In name secrets_to_encode -> env_vars !! name = None ->
        In (not_found_report name) (stdout w)).

(** *** Notions used to state what the lines of the file give *)

(** The end of a line [KEY=VALUE] of the file: a line feed, or nothing
    when the file ends with the line. *)
Definition line_end (eol after : str) : Prop :=
  eol = [10] \/ (eol = [] /\ after = []).

(** The round trip of a line [KEY=VALUE] of the file, for a target key:
    the run appends a line [KEY_B64='e'] whose [e], decoded as base64 and
    read as UTF-8, is [VALUE]. *)
Definition line_value_round_trip (text name value : str) : Prop :=
  In name secrets_to_encode ->
  In (name ++ [61] ++ value ++ [10]) (readlines text) ->
  exists (encoded_value before after : str),
    env_file (run (Some text))
    = Some (text ++ before ++ b64_line name encoded_value ++ after)
    /\ Base64.b64decode encoded_value ≫= Utf8.decode = Some value.

(** The file after a run on an existing file. *)
Definition file_after (text : str) : str :=
  default [] (env_file (run (Some text))).

(** The number of lines of a text, as iterating over the file gives them. *)
Definition line_count (text : str) : nat := length (readlines text).

(** The number of lines of a text that start with [KEY_B64=]. *)
Definition b64_lines_of (name text : str) : nat :=
  length (List.filter (startswith (name ++ lit "_B64=")) (readlines text)).

(** The growth of the file over two runs in a row: each run adds one line
    per target key present in the original file, and the two runs add two
    lines [KEY_B64=...] for each of these keys. *)
Definition grows_by_present_keys (text : str) : Prop :=
  let keys := present (parse_env text) in
  let text1 := file_after text in
  let text2 := file_after text1 in
  line_count text1 = (line_count text + length keys)%nat
  /\ line_count text2 = (line_count text1 + length keys)%nat
  /\ (forall name, In name keys ->
        b64_lines_of name text2 = (b64_lines_of name text + 2)%nat).

End Encoder.

(** ** scripts/create-test-data.py *)

Module Uploader.
Import Py.

(** *** Time: [datetime], [timedelta], [pd.date_range] *)

Definition us_per_minute : Z := 60000000.
Definition us_per_hour : Z := 3600000000.
Definition us_per_day : Z := 86400000000.

(** [timedelta(days=d, hours=h)] *)
Definition timedelta (days hours : Z) : Z :=
  (days * us_per_day + hours * us_per_hour)%Z.

(** [timestamp.hour] *)
Definition hour (timestamp : Z) : Z := ((timestamp / us_per_hour) mod 24)%Z.

(** [pd.date_range(start=start, end=end, freq='1min')]: the instants
    [start + k] minutes, [k = 0, 1, ...], that are not after [end]. *)
Definition date_range (start_date end_date : Z) : list Z :=
  if (start_date <=? end_date)%Z then
    map (fun k => (start_date + Z.of_nat k * us_per_minute)%Z)
        (seq 0 (S (Z.to_nat ((end_date - start_date) / us_per_minute))))
  else [].

(** [range(1, num_devices + 1)] *)
Definition device_range (num_devices : Z) : list Z :=
  map (fun k => (1 + Z.of_nat k)%Z) (seq 0 (Z.to_nat num_devices)).

(** 2024-01-01T00:00:00, day 738886 of the proleptic Gregorian calendar. *)
Definition t_2024_01_01 : Z := (738885 * us_per_day)%Z.

(** *** Numbers: [round(x, 2)], [max], [min] *)

Local Open Scope Q_scope.

(** Rounding to the nearest integer, ties to even. *)
Definition round_half_even (y : Q) : Z :=
  let f := Qfloor y in
  match Qcompare (y - inject_Z f) (1 # 2) with
  | Lt => f
  | Gt => (f + 1)%Z
  | Eq => if Z.even f then f else (f + 1)%Z
  end.

(** [round(x, 2)] *)
Definition round2 (x : Q) : Q := round_half_even (x * 100) # 100.

(** [round(v, 2) == v]: [v] has at most two decimals. *)
Definition two_decimals (v : Q) : bool := Qeq_bool (round2 v) v.

Definition is_two_decimals (v : Q) : Prop := two_decimals v = true.

(** [max(a, b)] and [min(a, b)]: Python keeps the first argument unless
    the second is strictly larger (smaller). *)
Definition py_max (a b : Q) : Q := if Qle_bool b a then a else b.
Definition py_min (a b : Q) : Q := if Qle_bool a b then a else b.

(** *** The records of the data frame *)

Inductive metric := Temperature | Humidity | Pressure.

(** One row. [timestamp] holds the instant; the source stores its
    rendering [timestamp.isoformat() + 'Z']. *)
Record reading := Reading {
  timestamp : Z;
  device_id : str;
  metric_name : metric;
  metric_value : Q;
  location : str;
  zone : str
}.

Definition metric_label (m : metric) : str :=
  match m with
  | Temperature => lit "temperature"
  | Humidity => lit "humidity"
  | Pressure => lit "pressure"
  end.

Definition device_zone (device_id : Z) : str * str :=
  if (device_id =? 1)%Z then (lit "zone_a", lit "production")
  else if (device_id =? 2)%Z then (lit "zone_b", lit "testing")
  else if (device_id =? 3)%Z then (lit "zone_c", lit "development")
  else if (device_id =? 4)%Z then (lit "zone_d", lit "storage")
  else (lit "zone_e", lit "monitoring").

Definition is_daytime (timestamp : Z) : bool :=
  ((6 <=? hour timestamp) && (hour timestamp <=? 18))%Z.

Section Generator.

(** The state of the [random] module and [random.random()]. *)
Variable Rng : Type.
Variable random : Rng -> Q * Rng.

(** [random.uniform(a, b)] is [a + (b - a) * random()]. *)
Definition uniform (a b : Q) (g : Rng) : Q * Rng :=
  let '(u, g) := random g in (a + (b - a) * u, g).

(** The body of the inner loop: the three rows of one device at one
    instant. *)
Definition device_rows (timestamp : Z) (g : Rng) (device_id : Z)
    : list reading * Rng :=
  let '(x, g) := uniform 20 30 g in
  let temperature := round2 x in
  let '(x, g) := uniform 40 60 g in
  let humidity := round2 x in
  let '(x, g) := uniform 1010 1020 g in
  let pressure := round2 x in
  let '(temperature, humidity, g) :=
    if is_daytime timestamp then
      let '(x, g) := uniform 2 5 g in
      let temperature := temperature + x in
      let '(x, g) := uniform 5 15 g in
      let humidity := humidity - x in
      (temperature, humidity, g)
    else (temperature, humidity, g) in
  let '(location, zone) := device_zone device_id in
  let device := lit "device_" ++ format_03d (Z.to_N device_id) in
  ([ Reading timestamp device Temperature (py_max 0 temperature)
             location zone;
     Reading timestamp device Humidity (py_max 0 (py_min 100 humidity))
             location zone;
     Reading timestamp device Pressure pressure location zone ], g).

(** [data.extend(rows)] with the generator state threaded through. *)
Definition extend (rows : Rng -> list reading * Rng)
    (acc : list reading * Rng) : list reading * Rng :=
  let '(data, g) := acc in
  let '(new, g) := rows g in
  (data ++ new, g).

(** The inner loop, [for device_id in range(1, num_devices + 1)]. *)
Definition devices_loop (ts : Z) (devs : list Z)
    (acc : list reading * Rng) : list reading * Rng :=
  foldl (fun acc dev => extend (fun g => device_rows ts g dev) acc) acc devs.

(** The outer loop, [for timestamp in date_range]. *)
Definition instants_loop (tss devs : list Z)
    (acc : list reading * Rng) : list reading * Rng :=
  foldl (fun acc ts => devices_loop ts devs acc) acc tss.

(** [generate_sample_data]: the rows of [pd.DataFrame(data)], in order,
    and the generator state left behind. *)
Definition generate_sample_data (start_date end_date num_devices : Z)
    (g : Rng) : list reading * Rng :=
  instants_loop (date_range start_date end_date)
                (device_range num_devices) ([], g).

(** The generator state when the pressure of a device is drawn. *)
Definition before_pressure (g : Rng) : Rng :=
  snd (uniform 40 60 (snd (uniform 20 30 g))).

End Generator.

Definition has_metric (m : metric) (r : reading) : bool :=
  match m, metric_name r with
  | Temperature, Temperature | Humidity, Humidity | Pressure, Pressure => true
  | _, _ => false
  end.

(** The bounds that clamping gives to a row. *)
Definition within_bounds (r : reading) : Prop :=
  match metric_name r with
  | Temperature => 0 <= metric_value r
  | Humidity => 0 <= metric_value r /\ metric_value r <= 100
  | Pressure => True
  end.

(** A generator that replays a tape of [random()] results. *)
Definition tape_random (g : list Q) : Q * list Q :=
  match g with
  | [] => (0, [])
  | u :: g' => (u, g')
  end.

(** 2024-01-01T12:00:00. *)
Definition noon : Z := (t_2024_01_01 + 12 * us_per_hour)%Z.

(** What a row shows of its value: the metric, the value in lowest
    terms, and whether [round(value, 2) == value]. *)
Definition value_view (r : reading) : metric * Q * bool :=
  (metric_name r, Qred (metric_value r), two_decimals (metric_value r)).

Arguments uniform {Rng} random a b g.
Arguments device_rows {Rng} random timestamp g device_id.
Arguments extend {Rng} rows acc.
Arguments devices_loop {Rng} random ts devs acc.
Arguments instants_loop {Rng} random tss devs acc.
Arguments before_pressure {Rng} random g.
Arguments generate_sample_data {Rng} random start_date end_date num_devices g.

(** *** Upload *)

(** [boto3.client('s3', ...)] and the arguments of [put_object]. *)
Record client := Client {
  aws_access_key_id : option str;
  aws_secret_access_key : option str;
  region_name : str
}.

Record put_request (Body : Type) := PutObject {
  s3_client : client;
  Bucket : option str;
  Key : str;
  Body_ : Body;
  ContentType : str
}.

Arguments PutObject {Body} s3_client Bucket Key Body_ ContentType.
Arguments s3_client {Body} p.
Arguments Bucket {Body} p.
Arguments Key {Body} p.
Arguments Body_ {Body} p.
Arguments ContentType {Body} p.

Record test_file := TestFile { key : str; description : str }.

Section Upload.

Variable Rng : Type.
Variable random : Rng -> Q * Rng.

(** [df.to_csv(index=False)], encoded: the bytes of the object. *)
Variable Body : Type.
Variable to_csv : list reading -> Body.

(** The object store and the storage interaction of the [try] block
    (the client made by [boto3.client] and its [put_object] call), which
    returns the store it leaves and the exception it raised, if any. *)
Variable Store : Type.
Variable Exn : Type.
Variable put_object : put_request Body -> Store -> option Exn * Store.

Definition upload_to_s3 (df : list reading) (bucket_name : option str)
    (key : str) (aws_access_key_id aws_secret_access_key : option str)
    (region : str) (s : Store) : bool * Store :=
  let s3_client := Client aws_access_key_id aws_secret_access_key region in
  let csv_content := to_csv df in
  match put_object
          (PutObject s3_client bucket_name key csv_content (lit "text/csv")) s
  with
  | (None, s) => (true, s)
  | (Some e, s) => (false, s)
  end.

(** The five settings that [main] reads from the environment. *)
Record config := Config {
  cfg_access_key : option str;
  cfg_secret_key : option str;
  cfg_region : str;
  cfg_bucket : option str;
  cfg_prefix : str
}.

Definition read_config (getenv : str -> option str) : config :=
  let s3_prefix := default (lit "data/") (getenv (lit "S3_PREFIX")) in
  let s3_prefix :=
    if negb (endswith (lit "/") s3_prefix) then s3_prefix ++ lit "/"
    else s3_prefix in
  Config (getenv (lit "AWS_ACCESS_KEY_ID"))
         (getenv (lit "AWS_SECRET_ACCESS_KEY"))
         (default (lit "us-east-1") (getenv (lit "AWS_REGION")))
         (getenv (lit "S3_BUCKET_NAME"))
         s3_prefix.

Definition test_files (s3_prefix : str) : list test_file :=
  [ TestFile (s3_prefix ++ lit "sample-metrics.csv")
             (lit "Full dataset for testing");
    TestFile (s3_prefix ++ lit "daily-metrics-2024-01-15.csv")
             (lit "Daily dataset for scheduled workflow testing");
    TestFile (s3_prefix ++ lit "hourly-metrics-2024-01-15.csv")
             (lit "Hourly dataset for smaller batch testing") ].

(** The body of the [for test_file in test_files] loop; the first
    component is [success]. *)
Definition upload_one (c : config) (end_date : Z) (df : list reading)
    (st : Rng * Store) (f : test_file) : bool * (Rng * Store) :=
  let '(g, s) := st in
  if contains (lit "daily") (key f) then
    let daily_start := (end_date - timedelta 1 0)%Z in
    let '(daily_df, g) := generate_sample_data random daily_start end_date 3 g in
    let '(success, s) :=
      upload_to_s3 daily_df (cfg_bucket c) (key f) (cfg_access_key c)
                   (cfg_secret_key c) (cfg_region c) s in
    (success, (g, s))
  else if contains (lit "hourly") (key f) then
    let hourly_start := (end_date - timedelta 0 1)%Z in
    let '(hourly_df, g) :=
      generate_sample_data random hourly_start end_date 2 g in
    let '(success, s) :=
      upload_to_s3 hourly_df (cfg_bucket c) (key f) (cfg_access_key c)
                   (cfg_secret_key c) (cfg_region c) s in
    (success, (g, s))
  else
    let '(success, s) :=
      upload_to_s3 df (cfg_bucket c) (key f) (cfg_access_key c)
                   (cfg_secret_key c) (cfg_region c) s in
    (success, (g, s)).

(** [main]; [now] is the result of [datetime.now()]. Console output is
    not part of the state. *)
Definition main (getenv : str -> option str) (now : Z)
    (st : Rng * Store) : Rng * Store :=
  let c := read_config getenv in
  let '(g, s) := st in
  let end_date := now in
  let start_date := (end_date - timedelta 7 0)%Z in
  let '(df, g) := generate_sample_data random start_date end_date 5 g in
  foldl (fun st f => snd (upload_one c end_date df st f))
        (g, s) (test_files (cfg_prefix c)).

End Upload.

Arguments upload_to_s3 {Body} to_csv {Store Exn} put_object.
Arguments upload_one {Rng} random {Body} to_csv {Store Exn} put_object.
Arguments main {Rng} random {Body} to_csv {Store Exn} put_object.

(** The request that [upload_to_s3] sends for a key and a body. *)
Definition request_for {Body} (c : config) (key : str) (body : Body)
    : put_request Body :=
  PutObject (Client (cfg_access_key c) (cfg_secret_key c) (cfg_region c))
            (cfg_bucket c) key body (lit "text/csv").

(** [True] when the call returned, [False] when it raised. *)
Definition returned {Exn Store} (r : option Exn * Store) : bool :=
  match fst r with None => true | Some _ => false end.

(** The three object names of [main]. *)
Definition sample_name : str := lit "sample-metrics.csv".
Definition daily_name : str := lit "daily-metrics-2024-01-15.csv".
Definition hourly_name : str := lit "hourly-metrics-2024-01-15.csv".

(** An object store that keeps every request it receives, in order, and
    raises on the requests selected by [fails]. *)
Definition recording_put {Body} (fails : put_request Body -> bool)
    (r : put_request Body) (s : list (put_request Body))
    : option unit * list (put_request Body) :=
  (if fails r then Some tt else None, s ++ [r]).

(** The requests that a run of [main] sends, with the data frame itself
    as the body. *)
Definition requests_of_main {Rng} (random : Rng -> Q * Rng)
    (fails : put_request (list reading) -> bool)
    (getenv : str -> option str) (now : Z) (g : Rng)
    : list (put_request (list reading)) :=
  snd (main random (fun df => df) (recording_put fails) getenv now (g, [])).

(** What a recorded request shows: its key and the number of rows. *)
Definition rows_of (df : list reading) : Z := Z.of_nat (length df).

Definition request_view (r : put_request (list reading)) : str * Z :=
  (Key r, rows_of (Body_ r)).

(** An environment that only sets [S3_PREFIX]. *)
Definition env_with_prefix (prefix : str) (name : str) : option str :=
  if bool_decide (name = lit "S3_PREFIX") then Some prefix else None.

(** *** Notions used to state what the generator and [main] do *)

(** A source whose [random()] stays in the unit interval, as Python's. *)
Definition unit_interval {Rng} (random : Rng -> Q * Rng) : Prop :=
  forall g, 0 <= fst (random g) /\ fst (random g) <= 1.

(** A source that always answers [u] and counts its calls. *)
Definition const_random (u : Q) (g : nat) : Q * nat := (u, S g).

(** The state of a source after [k] calls of [random()]. *)
Definition draws {Rng} (random : Rng -> Q * Rng) (k : nat) (g : Rng) : Rng :=
  Nat.iter k (fun g => snd (random g)) g.

(** The calls that a frame takes: three for each device at each instant,
    and two more at the instants of the daytime. *)
Definition draws_needed (start_date end_date num_devices : Z) : nat :=
  (Z.to_nat num_devices
   * (3 * length (date_range start_date end_date)
      + 2 * length (List.filter is_daytime (date_range start_date end_date))))%nat.

(** The range of a value, by metric and time of day. *)
Definition in_generated_range (r : reading) : Prop :=
  match metric_name r with
  | Temperature =>
      if is_daytime (timestamp r)
      then 22 <= metric_value r /\ metric_value r <= 35
      else 20 <= metric_value r /\ metric_value r <= 30
  | Humidity =>
      if is_daytime (timestamp r)
      then 25 <= metric_value r /\ metric_value r <= 55
      else 40 <= metric_value r /\ metric_value r <= 60
  | Pressure => 1010 <= metric_value r /\ metric_value r <= 1020
  end.

(** [f'device_{device_id:03d}'] *)
Definition device_label (device_id : Z) : str :=
  lit "device_" ++ format_03d (Z.to_N device_id).

(** The number that a text of decimal digits writes. *)
Definition decimal_value (ds : str) : N :=
  fold_left (fun a c => (10 * a + (c - 48))%N) ds 0%N.

(** The columns of a row that do not depend on the random draws, and
    their expected contents for a frame. *)
Definition fixed_columns (r : reading) : Z * str * metric * str * str :=
  (timestamp r, device_id r, metric_name r, location r, zone r).

Definition device_columns (ts dev : Z) : list (Z * str * metric * str * str) :=
  map (fun m => (ts, device_label dev, m, fst (device_zone dev),
                 snd (device_zone dev)))
      [Temperature; Humidity; Pressure].

Definition frame_columns (start_date end_date num_devices : Z)
    : list (Z * str * metric * str * str) :=
  flat_map (fun ts => flat_map (device_columns ts) (device_range num_devices))
           (date_range start_date end_date).

(** No occurrence of [pat] in [p ++ s] can lie across the end of [p]: no
    proper, non-empty rest of [pat] starts [s]. *)
Definition no_straddle (pat s : str) : bool :=
  forallb (fun k => negb (startswith (List.skipn k pat) s))
          (seq 1 (length pat - 1)).

(** The value of [S3_PREFIX] that [main] starts from. *)
Definition given_prefix (getenv : str -> option str) : str :=
  default (lit "data/") (getenv (lit "S3_PREFIX")).

(** The settings that every request of a run carries. *)
Definition carries_settings (getenv : str -> option str)
    (r : put_request (list reading)) : Prop :=
  ContentType r = lit "text/csv"
  /\ Bucket r = getenv (lit "S3_BUCKET_NAME")
  /\ aws_access_key_id (s3_client r) = getenv (lit "AWS_ACCESS_KEY_ID")
  /\ aws_secret_access_key (s3_client r)
     = getenv (lit "AWS_SECRET_ACCESS_KEY")
  /\ region_name (s3_client r)
     = default (lit "us-east-1") (getenv (lit "AWS_REGION")).

End Uploader.

(** * Properties of the codecs *)

Module CodecFacts.
Import Py Utf8 Base64.
Local Open Scope N_scope.

Local Ltac Zify.zify_post_hook ::= Z.to_euclidean_division_equations.

(** *** The base64 alphabet *)

Lemma sextet_In (i : N) : i < 64 -> In i sextets.
Proof.
  intros H. unfold sextets. apply in_map_iff. exists (N.to_nat i).
  split; [lia | apply in_seq; lia].
Qed.

Lemma sextet_check (f : N -> bool) :
  forallb f sextets = true -> forall i, i < 64 -> f i = true.
Proof.
  intros H i Hi. rewrite forallb_forall in H. apply H, sextet_In, Hi.
Qed.

Lemma b64index_b64char (i : N) : i < 64 -> b64index (b64char i) = Some i.
Proof.
  intros Hi.
  pose proof (sextet_check
    (fun i => match b64index (b64char i) with
              | Some j => j =? i
              | None => false
              end) eq_refl i Hi) as H.
  simpl in H. destruct (b64index (b64char i)) as [j |]; [| discriminate].
  apply N.eqb_eq in H. congruence.
Qed.

Lemma b64char_not_pad (i : N) : i < 64 -> (b64char i =? pad) = false.
Proof.
  intros Hi.
  apply negb_true_iff.
  exact (sextet_check (fun i => negb (b64char i =? pad)) eq_refl i Hi).
Qed.


Lemma b64char_ascii (i : N) : is_ascii (b64char i).
Proof.
  unfold is_ascii. destruct (N.lt_ge_cases i 64) as [Hi | Hi].
  - apply N.ltb_lt.
    exact (sextet_check (fun i => b64char i <? 128) eq_refl i Hi).
  - unfold b64char. rewrite nth_overflow; [lia |].
    change (length alphabet) with 64%nat. lia.
Qed.

(** *** One group of three bytes *)

Lemma decode_quad_encode (a b c : N) :
  is_byte a -> is_byte b -> is_byte c ->
  decode_quad (b64char (a / 4)) (b64char ((a mod 4) * 16 + b / 16))
              (b64char ((b mod 16) * 4 + c / 64)) (b64char (c mod 64))
  = Some [a; b; c].
Proof.
  unfold is_byte. intros Ha Hb Hc. unfold decode_quad.
  rewrite !b64index_b64char by lia. simpl.
  repeat f_equal; lia.
Qed.

Lemma decode_last_encode1 (a : N) :
  is_byte a ->
  decode_last (b64char (a / 4)) (b64char ((a mod 4) * 16)) pad pad = Some [a].
Proof.
  unfold is_byte. intros Ha. unfold decode_last. rewrite N.eqb_refl.
  rewrite !b64index_b64char by lia. simpl. repeat f_equal; lia.
Qed.

Lemma decode_last_encode2 (a b : N) :
  is_byte a -> is_byte b ->
  decode_last (b64char (a / 4)) (b64char ((a mod 4) * 16 + b / 16))
              (b64char ((b mod 16) * 4)) pad
  = Some [a; b].
Proof.
  unfold is_byte. intros Ha Hb. unfold decode_last. rewrite N.eqb_refl.
  rewrite b64char_not_pad by lia.
  rewrite !b64index_b64char by lia. simpl. repeat f_equal; lia.
Qed.

(** Induction over a list three elements at a time, as the encoder reads
    its input. *)
Lemma list_ind_by_three {A : Type} (P : list A -> Prop) :
  P [] -> (forall a, P [a]) -> (forall a b, P [a; b]) ->
  (forall a b c l, P l -> P (a :: b :: c :: l)) ->
  forall l, P l.
Proof.
  intros H0 H1 H2 H3 l.
  assert (H : P l /\ (forall a, P (a :: l)) /\ (forall a b, P (a :: b :: l))).
  { induction l as [| x l (IH0 & IH1 & IH2)]; auto. }
  apply H.
Qed.

Lemma b64encode_nil_inv (bs : bytes) : b64encode bs = [] -> bs = [].
Proof. destruct bs as [| a [| b [| c r]]]; simpl; congruence. Qed.

(** The round trip on bytes. *)
Lemma b64decode_b64encode (bs : bytes) :
  Forall is_byte bs -> b64decode (b64encode bs) = Some bs.
Proof.
  induction bs as [| a | a b | a b c rest IH] using list_ind_by_three;
    intros Hbs.
  - reflexivity.
  - inversion_clear Hbs. simpl. apply decode_last_encode1; assumption.
  - inversion_clear Hbs as [| ? ? Ha Hbs']. inversion_clear Hbs'.
    simpl. apply decode_last_encode2; assumption.
  - inversion_clear Hbs as [| ? ? Ha Hbs1].
    inversion_clear Hbs1 as [| ? ? Hb Hbs2].
    inversion_clear Hbs2 as [| ? ? Hc Hrest].
    change (b64encode (a :: b :: c :: rest))
      with (b64char (a / 4) :: b64char ((a mod 4) * 16 + b / 16)
            :: b64char ((b mod 16) * 4 + c / 64) :: b64char (c mod 64)
            :: b64encode rest).
    cbn [b64decode]. specialize (IH Hrest).
    destruct (b64encode rest) as [| x xs] eqn:E.
    + apply b64encode_nil_inv in E. subst rest.
      unfold decode_last. unfold is_byte in *.
      rewrite b64char_not_pad by lia.
      apply decode_quad_encode; assumption.
    + rewrite decode_quad_encode by assumption.
      rewrite IH. reflexivity.
Qed.

Lemma b64encode_ascii (bs : bytes) : Forall is_ascii (b64encode bs).
Proof.
  induction bs as [| a | a b | a b c rest IH] using list_ind_by_three;
    simpl; repeat constructor; try apply b64char_ascii; try exact IH.
Qed.

(** *** UTF-8 *)

Lemma decode_ascii (bs : bytes) : Forall is_ascii bs -> decode bs = Some bs.
Proof.
  induction 1 as [| b bs Hb _ IH]; [reflexivity |].
  unfold is_ascii in Hb. cbn [decode].
  apply N.ltb_lt in Hb. rewrite Hb, IH. reflexivity.
Qed.

Lemma scalar_spec (c : N) :
  scalar c = true <-> c < 55296 \/ 57344 <= c < 1114112.
Proof.
  unfold scalar.
  rewrite orb_true_iff, andb_true_iff, !N.ltb_lt, N.leb_le. reflexivity.
Qed.

Lemma encode_char_bytes (c : N) :
  scalar c = true -> Forall is_byte (encode_char c).
Proof.
  unfold encode_char, is_byte. intros H. apply scalar_spec in H.
  repeat match goal with
         | |- context [?x <? ?y] => destruct (N.ltb_spec x y)
         end; repeat constructor; lia.
Qed.

Ltac decide_comparisons :=
  repeat match goal with
         | |- context [?x <? ?y] =>
             first [ rewrite (proj2 (N.ltb_lt x y)) by lia
                   | rewrite (proj2 (N.ltb_ge x y)) by lia ]
         | |- context [?x <=? ?y] =>
             first [ rewrite (proj2 (N.leb_le x y)) by lia
                   | rewrite (proj2 (N.leb_gt x y)) by lia ]
         end;
  cbn [andb orb negb].

Lemma decode_encode_char (c : N) (bs : bytes) :
  scalar c = true -> decode (encode_char c ++ bs) = cons c <$> decode bs.
Proof.
  unfold encode_char. intros H.
  pose proof (proj1 (scalar_spec c) H) as Hc.
  destruct (N.ltb_spec c 128) as [H1 | H1];
    [| destruct (N.ltb_spec c 2048) as [H2 | H2];
       [| destruct (N.ltb_spec c 65536) as [H3 | H3]]];
    cbn [app decode]; unfold continuation; decide_comparisons.
  - reflexivity.
  - replace ((192 + c / 64 - 192) * 64 + (128 + c mod 64 - 128)) with c by lia.
    reflexivity.
  - replace ((224 + c / 4096 - 224) * 4096 + (128 + (c / 64) mod 64 - 128) * 64
             + (128 + c mod 64 - 128)) with c by lia.
    decide_comparisons. rewrite H. reflexivity.
  - replace ((240 + c / 262144 - 240) * 262144
             + (128 + (c / 4096) mod 64 - 128) * 4096
             + (128 + (c / 64) mod 64 - 128) * 64
             + (128 + c mod 64 - 128)) with c by lia.
    decide_comparisons. rewrite H. reflexivity.
Qed.

Lemma decode_encode (s : str) : valid_str s -> decode (encode s) = Some s.
Proof.
  unfold valid_str, encode. induction s as [| c s IH]; [reflexivity |].
  cbn [forallb flat_map]. intros H. apply andb_true_iff in H as [Hc Hs].
  rewrite decode_encode_char by exact Hc. rewrite IH by exact Hs.
  reflexivity.
Qed.

Lemma encode_bytes (s : str) : valid_str s -> Forall is_byte (encode s).
Proof.
  unfold valid_str, encode. induction s as [| c s IH]; [constructor |].
  cbn [forallb flat_map]. intros H. apply andb_true_iff in H as [Hc Hs].
  apply Forall_app. split; [apply encode_char_bytes, Hc | apply IH, Hs].
Qed.

End CodecFacts.

(** * Properties of encode-secrets.py *)

Module EncoderFacts.
Import Py Base64 Encoder CodecFacts.
Local Open Scope N_scope.

(** *** [encode_secret] *)

Lemma encode_secret_decodes (secret : str) :
  Utf8.decode (Base64.b64encode (Utf8.encode secret))
  = Some (encode_secret secret).
Proof.
  unfold encode_secret.
  rewrite decode_ascii by apply b64encode_ascii. reflexivity.
Qed.

Lemma encode_secret_b64 (secret : str) :
  encode_secret secret = Base64.b64encode (Utf8.encode secret).
Proof.
  pose proof (encode_secret_decodes secret) as H.
  rewrite decode_ascii in H by apply b64encode_ascii. congruence.
Qed.

(** Decoding the encoded secret gives the secret back. *)
Lemma encode_secret_round_trip (secret : str) :
  Utf8.valid_str secret ->
  Base64.b64decode (encode_secret secret) ≫= Utf8.decode = Some secret.
Proof.
  intros Hv. rewrite encode_secret_b64.
  rewrite b64decode_b64encode by apply encode_bytes, Hv.
  simpl. apply decode_encode, Hv.
Qed.

(** *** The loop over the target keys *)

Lemma encode_one_loop (env_vars : gmap str str) (names : list str)
    (text : str) (out : list str) :
  foldl (encode_one env_vars) (World (Some text) out) names
  = World (Some (text ++ concat (map (fun name => entry_for env_vars name ++ [10])
                                     (List.filter (has_key env_vars) names))))
          (out ++ map (report env_vars) names).
Proof.
  revert text out. induction names as [| name names IH]; intros text out.
  - simpl. rewrite !app_nil_r. reflexivity.
  - cbn [foldl List.filter map]. unfold encode_one at 2, has_key at 1, report at 1.
    destruct (env_vars !! name) as [value |] eqn:E.
    + unfold print, append_env. cbn [env_file stdout default].
      rewrite IH. cbn [map concat]. unfold entry_for at 2. rewrite E.
      cbn [default]. unfold b64_line.
      rewrite <- !app_assoc. reflexivity.
    + unfold print. cbn [env_file stdout]. rewrite IH.
      rewrite <- !app_assoc. reflexivity.
Qed.

(** What a run does to an existing file. *)
Lemma main_existing (text : str) (out : list str) :
  main (World (Some text) out)
  = if (size (parse_env text) =? 0)%nat then World (Some text) out
    else World (Some (text ++ concat (appended (parse_env text))))
               (out ++ map (report (parse_env text)) secrets_to_encode).
Proof.
  unfold main, load_env_file. cbn [env_file].
  destruct (size (parse_env text) =? 0)%nat; [reflexivity |].
  apply encode_one_loop.
Qed.

Lemma present_empty : present ∅ = [].
Proof. reflexivity. Qed.

Lemma size_zero_empty (env_vars : gmap str str) :
  (size env_vars =? 0)%nat = true <-> env_vars = ∅.
Proof. rewrite Nat.eqb_eq. apply map_size_empty_iff. Qed.

(** The file after a run, whether or not the dictionary is empty. *)
Lemma main_existing_file (text : str) (out : list str) :
  env_file (main (World (Some text) out))
  = Some (text ++ concat (appended (parse_env text))).
Proof.
  rewrite main_existing.
  destruct (size (parse_env text) =? 0)%nat eqn:E; [| reflexivity].
  apply size_zero_empty in E. rewrite E. unfold appended.
  rewrite present_empty. simpl. rewrite app_nil_r. reflexivity.
Qed.

Lemma present_In (env_vars : gmap str str) (name : str) :
  In name (present env_vars)
  <-> In name secrets_to_encode /\ is_Some (env_vars !! name).
Proof.
  unfold present, has_key. rewrite filter_In.
  destruct (env_vars !! name); intuition (eauto; try discriminate).
  destruct H1; discriminate.
Qed.


(** *** The round trip of an encoded value *)

(** For a target key that the dictionary gives a value, the run appends
    the line of that key, and the standard base64 decoding of the value on
    that line, read as UTF-8, is the value of the dictionary. *)
Lemma appended_value_decodes_to_original (text : str) (out : list str)
    (name value : str) :
  In name secrets_to_encode ->
  parse_env text !! name = Some value ->
  Utf8.valid_str value ->
  exists (encoded_value before after : str),
    env_file (main (World (Some text) out))
    = Some (text ++ before ++ b64_line name encoded_value ++ after)
    /\ Base64.b64decode encoded_value ≫= Utf8.decode = Some value.
Proof.
  intros Hname Hvalue Hvalid.
  assert (Hin : In name (present (parse_env text))).
  { apply present_In. split; [exact Hname | eauto]. }
  apply in_split in Hin as (l1 & l2 & Hsplit).
  exists (encode_secret value),
         (concat (map (fun n => entry_for (parse_env text) n ++ [10]) l1)),
         (concat (map (fun n => entry_for (parse_env text) n ++ [10]) l2)).
  split; [| apply encode_secret_round_trip, Hvalid].
  rewrite main_existing_file. unfold appended. rewrite Hsplit.
  rewrite map_app, concat_app. cbn [map concat].
  unfold entry_for at 2. rewrite Hvalue. reflexivity.
Qed.

Lemma appended_value_decodes_to_original_witness :
  exists (encoded_value before after : str),
    env_file (main (World (Some (lit "AWS_REGION=us-east-1" ++ [10])) []))
    = Some ((lit "AWS_REGION=us-east-1" ++ [10]) ++ before
            ++ b64_line (lit "AWS_REGION") encoded_value ++ after)
    /\ Base64.b64decode encoded_value ≫= Utf8.decode = Some (lit "us-east-1").
Proof.
  apply (appended_value_decodes_to_original
           (lit "AWS_REGION=us-east-1" ++ [10]) []
           (lit "AWS_REGION") (lit "us-east-1")).
  - vm_compute. auto.
  - vm_compute. reflexivity.
  - reflexivity.
Defined.

(** *** Early exits *)

(** A target key starts with [A], [C] or [E]. *)
Lemma target_name_head (name : str) :
  In name secrets_to_encode -> exists c r, name = c :: r /\ 70 <> c.
Proof.
  intros Hname. repeat destruct Hname as [<- | Hname];
    try (vm_compute; eexists _, _; split; [reflexivity | discriminate]).
  destruct Hname.
Qed.

(** C8: without a [.env] file the run prints that the file was not found
    and stops: no file is created, and the one line printed is neither the
    encoded value nor the "not found" report of a target key. *)
Theorem missing_file_exits (out : list str) :
  main (World None out) = World None (out ++ [lit "File .env not found!"])
  /\ (forall name encoded_value,
        In name secrets_to_encode ->
        lit "File .env not found!" <> encoded_report name encoded_value
        /\ lit "File .env not found!" <> not_found_report name).
Proof.
  split; [reflexivity |].
  intros name encoded_value Hname.
  destruct (target_name_head name Hname) as (c & r & -> & Hc).
  split; intros H; vm_compute in H; injection H as H _; auto.
Qed.

Lemma parse_env_ignored (text : str) :
  Forall (fun line => entry_of_line line = None) (readlines text) ->
  parse_env text = ∅.
Proof.
  unfold parse_env. intros H. generalize (∅ : gmap str str).
  induction H as [| line lines Hline _ IH]; intros m; [reflexivity |].
  cbn [foldl]. unfold parse_line at 2. rewrite Hline. apply IH.
Qed.

(** A blank line, a comment and a line without [=] add nothing. *)
Lemma entry_of_line_ignored (line : str) :
  strip line = [] \/ startswith (lit "#") (strip line) = true
  \/ contains (lit "=") (strip line) = false ->
  entry_of_line line = None.
Proof.
  unfold entry_of_line. intros [-> | [-> | ->]]; [reflexivity | |].
  - rewrite andb_false_r. reflexivity.
  - rewrite andb_false_r. reflexivity.
Qed.

(** C10: when the file exists and the dictionary read from it is empty,
    the run stops at once: it prints nothing, in particular none of the
    seven "not found" lines, and leaves the file as it is. *)
Theorem empty_mapping_exits_early (text : str) (out : list str) :
  parse_env text = ∅ ->
  main (World (Some text) out) = World (Some text) out.
Proof.
  intros H. rewrite main_existing.
  rewrite (proj2 (size_zero_empty _) H). reflexivity.
Qed.

Lemma empty_mapping_exits_early_witness :
  main (World (Some (lit "# no entries" ++ [10; 10] ++ lit " no separator "
                     ++ [10])) [])
  = World (Some (lit "# no entries" ++ [10; 10] ++ lit " no separator "
                 ++ [10])) [].
Proof.
  apply (empty_mapping_exits_early
           (lit "# no entries" ++ [10; 10] ++ lit " no separator " ++ [10]) []).
  vm_compute. reflexivity.
Defined.

(** *** The frame of a run *)

(** On the empty file every target key is absent and none is reported. *)
Lemma empty_file_reports_nothing : ~ frame_and_reports [].
Proof.
  intros [_ H].
  specialize (H (lit "AWS_REGION")).
  vm_compute in H. apply H; auto 10.
Qed.

(** C9, amended: the file after a run is the original text followed by one
    line for each target key that has a value, in the order of the list,
    and nothing else; a target key without a value gets no line, and is
    reported as not found whenever the dictionary is not empty. *)
Theorem run_appends_only_target_lines (text : str) (out : list str) :
  let env_vars := parse_env text in
  let w := main (World (Some text) out) in
  env_file w = Some (text ++ concat (appended env_vars))
  /\ appended env_vars
     = map (fun name => b64_line name
                          (encode_secret (default [] (env_vars !! name))))
           (List.filter (has_key env_vars) secrets_to_encode)
  /\ (forall name, env_vars !! name = None ->
        ~ In name (List.filter (has_key env_vars) secrets_to_encode))
  /\ (forall name, In name secrets_to_encode -> env_vars !! name = None ->
        env_vars <> ∅ -> In (not_found_report name) (stdout w)).
Proof.
  intros env_vars w. split; [apply main_existing_file |].
  split; [reflexivity |]. split.
  - intros name Hnone Hin. apply filter_In in Hin as [_ Hin].
    unfold has_key in Hin. rewrite Hnone in Hin. discriminate.
  - intros name Hname Hnone Hne. subst w. rewrite main_existing.
    destruct (size (parse_env text) =? 0)%nat eqn:E.
    + apply size_zero_empty in E. contradiction.
    + cbn [stdout]. apply in_or_app. right.
      apply in_map_iff. exists name. split; [| exact Hname].
      unfold report. fold env_vars. rewrite Hnone. reflexivity.
Qed.


(** *** The lines of a text *)

Lemma readlines_terminated (body rest : str) :
  lf_free body ->
  readlines (terminated body ++ rest) = terminated body :: readlines rest.
Proof.
  unfold terminated. induction 1 as [| c body Hc _ IH]; [reflexivity |].
  cbn [app readlines] in *. apply N.eqb_neq in Hc. rewrite Hc, IH.
  reflexivity.
Qed.

Lemma readlines_open (tail : str) :
  lf_free tail -> tail <> [] -> readlines tail = [tail].
Proof.
  induction 1 as [| c tail Hc Htail IH]; [congruence |]. intros _.
  cbn [readlines]. apply N.eqb_neq in Hc. rewrite Hc.
  destruct tail as [| d tail]; [reflexivity |].
  rewrite IH by discriminate. reflexivity.
Qed.

Lemma readlines_layout (bodies : list str) (tail : str) :
  Forall lf_free bodies -> lf_free tail ->
  readlines (concat (map terminated bodies) ++ tail)
  = map terminated bodies ++ open_line tail.
Proof.
  intros Hbodies Htail. induction Hbodies as [| body bodies Hb _ IH].
  - cbn [map concat app]. destruct tail as [| c tail]; [reflexivity |].
    apply readlines_open; [exact Htail | discriminate].
  - cbn [map concat]. rewrite <- app_assoc.
    rewrite readlines_terminated by exact Hb. rewrite IH. reflexivity.
Qed.

(** Every text is a sequence of terminated lines and a rest without a
    line feed. *)
Lemma text_layout (text : str) :
  exists (bodies : list str) (tail : str),
    text = concat (map terminated bodies) ++ tail
    /\ Forall lf_free bodies /\ lf_free tail.
Proof.
  induction text as [| c text (bodies & tail & -> & Hbodies & Htail)].
  - exists [], []. repeat split; constructor.
  - destruct (N.eq_dec c 10) as [-> | Hc].
    + exists ([] :: bodies), tail.
      repeat split; [constructor; [constructor | exact Hbodies] | exact Htail].
    + destruct Hbodies as [| body bodies Hb Hbodies].
      * exists [], (c :: tail).
        repeat split; [constructor | constructor; assumption].
      * exists ((c :: body) :: bodies), tail.
        repeat split; [| exact Htail].
        constructor; [constructor; assumption | exact Hbodies].
Qed.

(** *** The keys of the dictionary *)

Lemma parse_lines_key (lines : list str) (env_vars : gmap str str) (name : str) :
  is_Some (foldl parse_line env_vars lines !! name)
  <-> is_Some (env_vars !! name)
      \/ Exists (fun line => key_of_line line = Some name) lines.
Proof.
  revert env_vars. induction lines as [| line lines IH]; intros env_vars.
  - cbn [foldl]. rewrite Exists_nil. tauto.
  - cbn [foldl]. rewrite IH, Exists_cons. unfold parse_line, key_of_line.
    destruct (entry_of_line line) as [[key value] |]; cbn.
    + destruct (decide (key = name)) as [-> | Hne].
      * rewrite lookup_insert_eq. intuition eauto.
      * rewrite lookup_insert_ne by exact Hne.
        intuition (try congruence).
    + intuition discriminate.
Qed.

Lemma has_key_parse_env (text : str) (name : str) :
  has_key (parse_env text) name = true
  <-> Exists (fun line => key_of_line line = Some name) (readlines text).
Proof.
  unfold has_key, parse_env.
  pose proof (parse_lines_key (readlines text) ∅ name) as H.
  rewrite lookup_empty in H.
  destruct (foldl parse_line ∅ (readlines text) !! name) eqn:E.
  - split; [intros _ | reflexivity].
    destruct (proj1 H (mk_is_Some _ _ eq_refl)) as [[? ?] | ?];
      [discriminate | assumption].
  - split; [discriminate |]. intros Hex.
    destruct (proj2 H (or_intror Hex)) as [? ?]. discriminate.
Qed.


(** *** Stripping and splitting *)

Lemma lstrip_app_nonspace (tail : str) (c : N) (x : str) :
  isspace c = false -> lstrip (tail ++ c :: x) = lstrip tail ++ c :: x.
Proof.
  intros Hc. induction tail as [| a tail IH]; cbn [app lstrip].
  - rewrite Hc. reflexivity.
  - destruct (isspace a); [exact IH | reflexivity].
Qed.

Lemma lstrip_head (s : str) :
  lstrip s = [] \/ exists c m, lstrip s = c :: m /\ isspace c = false.
Proof.
  induction s as [| a s IH]; cbn [lstrip]; [left; reflexivity |].
  destruct (isspace a) eqn:E; [exact IH | right; eauto].
Qed.

Lemma rstrip_app_nonspace (y : str) (c : N) (z : str) :
  isspace c = false -> rstrip (y ++ c :: z) = y ++ c :: rstrip z.
Proof.
  intros Hc. induction y as [| a y IH]; cbn [app rstrip].
  - rewrite Hc. destruct (rstrip z); reflexivity.
  - rewrite IH. destruct y; reflexivity.
Qed.

Lemma rstrip_cons_nonspace (c : N) (z : str) :
  isspace c = false -> rstrip (c :: z) = c :: rstrip z.
Proof. apply (rstrip_app_nonspace [] c z). Qed.

Lemma rstrip_prefix (s : str) : exists t, s = rstrip s ++ t.
Proof.
  induction s as [| c s (t & Ht)]; [exists []; reflexivity |].
  cbn [rstrip]. destruct (rstrip s) as [| r rs] eqn:E.
  - destruct (isspace c); [exists (c :: s) | exists s]; reflexivity.
  - exists t. cbn [app]. rewrite Ht at 1. reflexivity.
Qed.

Lemma split1_app_Some (sep : N) (m x k v : str) :
  split1 sep m = Some (k, v) -> split1 sep (m ++ x) = Some (k, v ++ x).
Proof.
  revert k v. induction m as [| c m IH]; intros k v; cbn [app split1];
    [discriminate |].
  destruct (c =? sep); [intros [= <- <-]; reflexivity |].
  destruct (split1 sep m) as [[k' v'] |]; [| discriminate].
  intros [= <- <-]. rewrite (IH _ _ eq_refl). reflexivity.
Qed.

Lemma split1_app_None (sep : N) (m x : str) :
  split1 sep m = None ->
  split1 sep (m ++ x) = (fun kv => (m ++ fst kv, snd kv)) <$> split1 sep x.
Proof.
  induction m as [| c m IH]; cbn [app split1].
  - intros _. destruct (split1 sep x) as [[k v] |]; reflexivity.
  - destruct (c =? sep); [discriminate |].
    destruct (split1 sep m) as [[k' v'] |]; [discriminate |]. intros _.
    rewrite IH by reflexivity.
    destruct (split1 sep x) as [[k v] |]; reflexivity.
Qed.

Lemma split1_inv (sep : N) (m k v : str) :
  split1 sep m = Some (k, v) -> m = k ++ sep :: v /\ split1 sep k = None.
Proof.
  revert k v. induction m as [| c m IH]; intros k v; cbn [split1];
    [discriminate |].
  destruct (c =? sep) eqn:E.
  - intros [= <- <-]. apply N.eqb_eq in E. subst c. split; reflexivity.
  - destruct (split1 sep m) as [[k' v'] |]; [| discriminate].
    intros [= <- <-]. destruct (IH _ _ eq_refl) as [-> Hk].
    split; [reflexivity |]. cbn [split1]. rewrite E, Hk. reflexivity.
Qed.

Lemma split1_intro (sep : N) (k v : str) :
  split1 sep k = None -> split1 sep (k ++ sep :: v) = Some (k, v).
Proof.
  intros Hk. rewrite split1_app_None by exact Hk.
  cbn [split1]. rewrite N.eqb_refl. cbn. rewrite app_nil_r. reflexivity.
Qed.

Lemma split1_rstrip (m : str) :
  fst <$> split1 61 (rstrip m) = fst <$> split1 61 m.
Proof.
  destruct (split1 61 m) as [[k v] |] eqn:E.
  - destruct (split1_inv _ _ _ _ E) as [-> Hk].
    rewrite rstrip_app_nonspace by reflexivity.
    rewrite split1_intro by exact Hk. reflexivity.
  - destruct (rstrip_prefix m) as [t Ht].
    destruct (split1 61 (rstrip m)) as [[k v] |] eqn:E'; [| reflexivity].
    rewrite Ht in E. rewrite (split1_app_Some _ _ _ _ _ E') in E.
    discriminate.
Qed.

Lemma contains_eq_split1 (s : str) :
  contains (lit "=") s
  = match split1 61 s with Some _ => true | None => false end.
Proof.
  change (lit "=") with [61]. induction s as [| c s IH]; [reflexivity |].
  cbn [contains startswith split1]. rewrite IH. rewrite (N.eqb_sym 61 c).
  destruct (c =? 61); [reflexivity |].
  destruct (split1 61 s) as [[k v] |]; reflexivity.
Qed.

Lemma key_of_line_stripped (line : str) :
  key_of_line line = key_of_stripped (strip line).
Proof.
  unfold key_of_line, entry_of_line, key_of_stripped.
  rewrite contains_eq_split1.
  destruct (truthy (strip line) && negb (startswith (lit "#") (strip line)));
    [| reflexivity].
  destruct (split1 61 (strip line)); reflexivity.
Qed.


(** *** The names of the target keys *)

Lemma target_names_ok : forallb target_name_ok secrets_to_encode = true.
Proof. vm_compute. reflexivity. Qed.

Lemma lf_free_forallb (s : str) :
  forallb (fun c => negb (c =? 10)) s = true -> lf_free s.
Proof.
  intros H. apply List.Forall_forall. intros c Hc.
  rewrite forallb_forall in H. specialize (H c Hc).
  apply negb_true_iff, N.eqb_neq in H. exact H.
Qed.

(** A target key starts with a character that is neither white space nor
    [#], has no [=] and no line feed, and does not end in [4]. *)
Lemma target_name_facts (name : str) :
  In name secrets_to_encode ->
  (exists c r, name = c :: r /\ isspace c = false /\ (35 =? c) = false)
  /\ split1 61 (name ++ lit "_B64") = None
  /\ List.last name 0 <> 52
  /\ lf_free name.
Proof.
  intros Hin. pose proof target_names_ok as H.
  rewrite forallb_forall in H. specialize (H name Hin).
  unfold target_name_ok in H. rewrite !andb_true_iff in H.
  destruct H as [[[H1 H2] H3] H4].
  split; [| split; [| split]].
  - destruct name as [| c r]; [discriminate |]. exists c, r.
    rewrite andb_true_iff, !negb_true_iff in H1. destruct H1 as [Hs Hh].
    rewrite N.eqb_sym. auto.
  - destruct (split1 61 (name ++ lit "_B64")); [discriminate | reflexivity].
  - apply negb_true_iff, N.eqb_neq in H3. exact H3.
  - apply lf_free_forallb, H4.
Qed.

Lemma b64_entry_shape (name e : str) :
  b64_entry name e = (name ++ lit "_B64") ++ 61 :: (39 :: e ++ [39]).
Proof.
  unfold b64_entry.
  change (lit "_B64='") with (lit "_B64" ++ [61; 39]).
  change (lit "'") with [39].
  rewrite <- !app_assoc. reflexivity.
Qed.

Lemma b64_entry_end (name e : str) :
  b64_entry name e = (name ++ lit "_B64='" ++ e) ++ [39].
Proof. unfold b64_entry. rewrite <- !app_assoc. reflexivity. Qed.

Lemma ends_in_4 (m name : str) : List.last (m ++ name ++ lit "_B64") 0 = 52.
Proof.
  change (lit "_B64") with (lit "_B6" ++ [52]).
  rewrite !app_assoc. apply List.last_last.
Qed.

(** *** A line of the file followed by an appended entry *)

Lemma strip_with_entry (tail name e : str) :
  In name secrets_to_encode ->
  strip (tail ++ b64_entry name e ++ [10]) = lstrip tail ++ b64_entry name e.
Proof.
  intros Hin.
  destruct (target_name_facts name Hin) as ((c & r & Hname & Hc & _) & _).
  unfold strip.
  assert (Hl : lstrip (tail ++ b64_entry name e ++ [10])
               = lstrip tail ++ b64_entry name e ++ [10]).
  { unfold b64_entry. rewrite Hname. cbn [app].
    apply lstrip_app_nonspace, Hc. }
  rewrite Hl, b64_entry_end.
  rewrite <- (app_assoc _ [39] [10]). rewrite app_assoc.
  cbn [app]. rewrite rstrip_app_nonspace by reflexivity.
  cbn [rstrip isspace]. rewrite <- app_assoc. reflexivity.
Qed.

(** Appending an entry to a line does not make it a line of a target
    key, nor stop it from being one. *)
Lemma key_of_line_with_entry (tail name e target : str) :
  In name secrets_to_encode -> In target secrets_to_encode ->
  key_of_line (tail ++ b64_entry name e ++ [10]) = Some target
  <-> key_of_line tail = Some target.
Proof.
  intros Hname Htarget.
  destruct (target_name_facts name Hname)
    as ((c & r & Hcr & Hc & Hhash) & Hsplit & _ & _).
  destruct (target_name_facts target Htarget) as (_ & _ & Hlast & _).
  rewrite !key_of_line_stripped, strip_with_entry by exact Hname.
  unfold strip.
  assert (Hentry : forall m, split1 61 m = None ->
            fst <$> split1 61 (m ++ b64_entry name e)
            = Some (m ++ name ++ lit "_B64")).
  { intros m Hm. rewrite split1_app_None by exact Hm.
    rewrite b64_entry_shape. rewrite split1_intro by exact Hsplit.
    reflexivity. }
  assert (Hnot : forall m, Some (m ++ name ++ lit "_B64") = Some target
                           <-> False).
  { intros m. split; [| tauto]. intros [= Heq].
    apply Hlast. rewrite <- Heq. apply ends_in_4. }
  destruct (lstrip_head tail) as [-> | (a & m & -> & Ha)].
  - cbn [app rstrip].
    assert (Hhead : truthy (b64_entry name e)
                    && negb (startswith (lit "#") (b64_entry name e)) = true).
    { unfold b64_entry. rewrite Hcr. change (lit "#") with [35].
      cbn [app truthy startswith]. rewrite Hhash. reflexivity. }
    unfold key_of_stripped. rewrite Hhead. cbn [truthy andb].
    rewrite <- (app_nil_l (b64_entry name e)).
    rewrite Hentry by reflexivity. rewrite Hnot. split; [tauto | discriminate].
  - pose proof (split1_rstrip (a :: m)) as Hr.
    rewrite (rstrip_cons_nonspace a m Ha) in *.
    unfold key_of_stripped. change (lit "#") with [35].
    cbn [app truthy startswith andb]. destruct (35 =? a); cbn [andb negb];
      [tauto |].
    rewrite Hr.
    change (a :: m ++ b64_entry name e) with ((a :: m) ++ b64_entry name e).
    destruct (split1 61 (a :: m)) as [[k v] |] eqn:E.
    + rewrite (split1_app_Some _ _ _ _ _ E). reflexivity.
    + rewrite Hentry by exact E. rewrite Hnot.
      split; [tauto | discriminate].
Qed.


(** *** The entries are single lines *)

Lemma b64char_not_lf (i : N) : b64char i <> 10.
Proof.
  destruct (N.lt_ge_cases i 64) as [Hi | Hi].
  - apply N.eqb_neq, negb_true_iff.
    exact (sextet_check (fun i => negb (b64char i =? 10)) eq_refl i Hi).
  - unfold b64char. rewrite nth_overflow; [discriminate |].
    change (length alphabet) with 64%nat. lia.
Qed.

Lemma b64encode_lf_free (bs : bytes) : lf_free (b64encode bs).
Proof.
  induction bs as [| a | a b | a b c rest IH] using list_ind_by_three;
    simpl; repeat constructor;
    try apply b64char_not_lf; try discriminate; exact IH.
Qed.

Lemma entry_for_lf_free (env_vars : gmap str str) (name : str) :
  In name secrets_to_encode -> lf_free (entry_for env_vars name).
Proof.
  intros Hin. destruct (target_name_facts name Hin) as (_ & _ & _ & Hname).
  unfold entry_for, b64_entry, lf_free. rewrite encode_secret_b64.
  repeat apply Forall_app_2; try exact Hname; try apply b64encode_lf_free;
    apply lf_free_forallb; reflexivity.
Qed.

Lemma line_feeds_app (a b : str) :
  line_feeds (a ++ b) = (line_feeds a + line_feeds b)%nat.
Proof. unfold line_feeds. rewrite List.filter_app, length_app. reflexivity. Qed.

Lemma line_feeds_lf_free (s : str) : lf_free s -> line_feeds s = 0%nat.
Proof.
  unfold line_feeds. induction 1 as [| c s Hc _ IH]; [reflexivity |].
  cbn [List.filter]. apply not_eq_sym, N.eqb_neq in Hc. rewrite Hc. exact IH.
Qed.

Lemma line_feeds_entries (env_vars : gmap str str) (names : list str) :
  Forall (fun name => In name secrets_to_encode) names ->
  line_feeds (concat (map (fun name => entry_for env_vars name ++ [10]) names))
  = length names.
Proof.
  induction 1 as [| name names Hname _ IH]; [reflexivity |].
  cbn [map concat length]. rewrite !line_feeds_app, IH.
  rewrite line_feeds_lf_free by (apply entry_for_lf_free, Hname).
  reflexivity.
Qed.

Lemma present_targets (env_vars : gmap str str) :
  Forall (fun name => In name secrets_to_encode) (present env_vars).
Proof.
  apply List.Forall_forall. intros name Hin.
  apply present_In in Hin. tauto.
Qed.

(** *** The keys after a run *)

Lemma sets_key_open_line (target tail : str) :
  Exists (sets_key target) (open_line tail) <-> sets_key target tail.
Proof.
  destruct tail as [| c tail]; cbn [open_line].
  - rewrite Exists_nil. split; [tauto | discriminate].
  - rewrite Exists_cons, Exists_nil. tauto.
Qed.

Lemma sets_key_entries (env_vars : gmap str str) (target : str)
    (names : list str) :
  In target secrets_to_encode ->
  Forall (fun name => In name secrets_to_encode) names ->
  ~ Exists (sets_key target)
           (map terminated (map (entry_for env_vars) names)).
Proof.
  intros Htarget Hnames. induction Hnames as [| name names Hname _ IH].
  - cbn [map]. rewrite Exists_nil. tauto.
  - cbn [map]. rewrite Exists_cons. intros [H | H]; [| exact (IH H)].
    unfold sets_key, terminated, entry_for in H.
    apply (key_of_line_with_entry [] name _ target Hname Htarget) in H.
    discriminate.
Qed.

Lemma keys_after_entries (env_vars : gmap str str) (text target : str)
    (names : list str) :
  In target secrets_to_encode ->
  Forall (fun name => In name secrets_to_encode) names ->
  Exists (sets_key target)
         (readlines (text ++ concat (map (fun name =>
                                            entry_for env_vars name ++ [10])
                                         names)))
  <-> Exists (sets_key target) (readlines text).
Proof.
  intros Htarget Hnames.
  destruct (text_layout text) as (bodies & tail & -> & Hbodies & Htail).
  destruct Hnames as [| name names Hname Hnames].
  { cbn [map concat]. rewrite app_nil_r. reflexivity. }
  assert (Hshape :
    (concat (map terminated bodies) ++ tail)
    ++ concat (map (fun n => entry_for env_vars n ++ [10]) (name :: names))
    = concat (map terminated
                  (bodies ++ (tail ++ entry_for env_vars name)
                             :: map (entry_for env_vars) names)) ++ []).
  { rewrite map_app, concat_app. cbn [map concat]. rewrite map_map.
    unfold terminated. rewrite app_nil_r, <- !app_assoc. reflexivity. }
  assert (Hfree : Forall lf_free
                    (bodies ++ (tail ++ entry_for env_vars name)
                               :: map (entry_for env_vars) names)).
  { apply Forall_app. split; [exact Hbodies |]. constructor.
    - apply Forall_app. split; [exact Htail |].
      apply entry_for_lf_free, Hname.
    - apply List.Forall_forall. intros e He. apply in_map_iff in He.
      destruct He as (n & <- & Hn). apply entry_for_lf_free.
      rewrite List.Forall_forall in Hnames. apply Hnames, Hn. }
  rewrite Hshape.
  rewrite (readlines_layout _ [] Hfree (List.Forall_nil _)).
  rewrite (readlines_layout bodies tail Hbodies Htail).
  cbn [open_line]. rewrite app_nil_r, map_app. cbn [map].
  rewrite !Exists_app, Exists_cons, sets_key_open_line.
  pose proof (sets_key_entries env_vars target names Htarget Hnames) as Hno.
  assert (Hmerge : sets_key target
                     (terminated (tail ++ entry_for env_vars name))
                   <-> sets_key target tail).
  { unfold sets_key, terminated, entry_for. rewrite <- app_assoc.
    apply key_of_line_with_entry; assumption. }
  tauto.
Qed.

(** A run leaves the set of target keys of the dictionary as it was. *)
Lemma present_after_run (text : str) :
  present (parse_env (text ++ concat (appended (parse_env text))))
  = present (parse_env text).
Proof.
  unfold present. apply List.filter_ext_in. intros target Htarget.
  apply Bool.eq_iff_eq_true. rewrite !has_key_parse_env.
  apply keys_after_entries; [exact Htarget | apply present_targets].
Qed.


(** *** A file that ends with a line feed *)

Lemma last_of_open_tail (a tail : str) :
  lf_free tail -> tail <> [] -> List.last (a ++ tail) 10 <> 10.
Proof.
  intros Hfree Hne.
  assert (Htail : List.last tail 10 <> 10).
  { induction Hfree as [| c tail Hc _ IH]; [congruence |].
    destruct tail as [| d tail]; [exact Hc | apply IH; discriminate]. }
  induction a as [| x a IH]; [exact Htail |].
  cbn [app]. destruct (a ++ tail) as [| y r] eqn:E; [| exact IH].
  apply app_eq_nil in E as [_ ->]. congruence.
Qed.

Lemma lookup_after_lines (env_vars : gmap str str) (lines : list str)
    (target : str) :
  ~ Exists (sets_key target) lines ->
  foldl parse_line env_vars lines !! target = env_vars !! target.
Proof.
  revert env_vars. induction lines as [| line lines IH]; intros env_vars Hno;
    [reflexivity |].
  rewrite Exists_cons in Hno. cbn [foldl]. rewrite IH by tauto.
  unfold parse_line. unfold sets_key, key_of_line in Hno.
  destruct (entry_of_line line) as [[key value] |]; [| reflexivity].
  apply lookup_insert_ne. intros ->. apply Hno. left. reflexivity.
Qed.

Lemma lookup_after_entries (env_vars : gmap str str) (text target : str)
    (names : list str) :
  List.last text 10 = 10 ->
  In target secrets_to_encode ->
  Forall (fun name => In name secrets_to_encode) names ->
  parse_env (text ++ concat (map (fun n => entry_for env_vars n ++ [10])
                                 names)) !! target
  = parse_env text !! target.
Proof.
  intros Hlast Htarget Hnames.
  destruct (text_layout text) as (bodies & tail & Htext & Hbodies & Htail).
  destruct tail as [| c tail].
  2:{ exfalso. rewrite Htext in Hlast.
      apply (last_of_open_tail _ (c :: tail)) in Hlast;
        [exact Hlast | exact Htail | discriminate]. }
  rewrite app_nil_r in Htext. subst text.
  assert (Hshape :
    concat (map terminated bodies)
    ++ concat (map (fun n => entry_for env_vars n ++ [10]) names)
    = concat (map terminated (bodies ++ map (entry_for env_vars) names))
      ++ []).
  { rewrite map_app, concat_app, map_map, app_nil_r. reflexivity. }
  assert (Hfree : Forall lf_free (bodies ++ map (entry_for env_vars) names)).
  { apply Forall_app. split; [exact Hbodies |].
    apply List.Forall_forall. intros e He. apply in_map_iff in He.
    destruct He as (n & <- & Hn). apply entry_for_lf_free.
    rewrite List.Forall_forall in Hnames. apply Hnames, Hn. }
  unfold parse_env. rewrite Hshape.
  rewrite (readlines_layout _ [] Hfree (List.Forall_nil _)).
  rewrite <- (app_nil_r (concat (map terminated bodies))).
  rewrite (readlines_layout bodies [] Hbodies (List.Forall_nil _)).
  cbn [open_line]. rewrite !app_nil_r, map_app, foldl_app.
  apply lookup_after_lines, sets_key_entries; assumption.
Qed.

(** After a run on a file that is empty or ends with a line feed, every
    target key has the value it had. *)
Lemma lookup_after_run (text target : str) :
  List.last text 10 = 10 ->
  In target secrets_to_encode ->
  parse_env (text ++ concat (appended (parse_env text))) !! target
  = parse_env text !! target.
Proof.
  intros Hlast Htarget. unfold appended.
  apply lookup_after_entries;
    [exact Hlast | exact Htarget | apply present_targets].
Qed.

Lemma appended_after_run (text : str) :
  List.last text 10 = 10 ->
  appended (parse_env (text ++ concat (appended (parse_env text))))
  = appended (parse_env text).
Proof.
  intros Hlast. unfold appended at 1 3. rewrite present_after_run.
  apply map_ext_in. intros name Hname.
  apply present_In in Hname as [Hname _].
  unfold entry_for. rewrite lookup_after_run by assumption. reflexivity.
Qed.

(** *** Two runs *)

Lemma main_file (w : world) (text : str) :
  env_file w = Some text ->
  env_file (main w) = Some (text ++ concat (appended (parse_env text))).
Proof.
  destruct w as [file out]. cbn [env_file]. intros ->.
  apply main_existing_file.
Qed.

(** Two runs in a row append, each, one text ending in a line feed per
    target key of the dictionary of the original file, for the same keys in
    the same order, so the number of line feeds of the file grows by the
    number of those keys at each run; when the file is empty or ends with a
    line feed the second run appends the very same lines again. *)
Lemma two_runs_append_twice (text : str) (out : list str) :
  let env1 := parse_env text in
  let w1 := main (World (Some text) out) in
  let text1 := text ++ concat (appended env1) in
  let env2 := parse_env text1 in
  let w2 := main w1 in
  let text2 := text1 ++ concat (appended env2) in
  env_file w1 = Some text1
  /\ env_file w2 = Some text2
  /\ appended env1
     = map (fun name => b64_line name
                          (encode_secret (default [] (env1 !! name))))
           (present env1)
  /\ appended env2
     = map (fun name => b64_line name
                          (encode_secret (default [] (env2 !! name))))
           (present env1)
  /\ line_feeds text1 = (line_feeds text + length (present env1))%nat
  /\ line_feeds text2 = (line_feeds text1 + length (present env1))%nat
  /\ (List.last text 10 = 10 -> appended env2 = appended env1).
Proof.
  intros env1 w1 text1 env2 w2 text2.
  assert (H1 : env_file w1 = Some text1) by apply main_existing_file.
  assert (Hkeys : present env2 = present env1) by apply present_after_run.
  split; [exact H1 |].
  split; [apply main_file, H1 |].
  split; [reflexivity |].
  split; [unfold appended; rewrite Hkeys; reflexivity |].
  split; [| split].
  - unfold text1. rewrite line_feeds_app. unfold appended.
    rewrite line_feeds_entries by apply present_targets. reflexivity.
  - unfold text2. rewrite line_feeds_app. unfold appended.
    rewrite line_feeds_entries by apply present_targets.
    rewrite Hkeys. reflexivity.
  - apply appended_after_run.
Qed.


(** *** A line [KEY=VALUE] of the file *)

Lemma readlines_after_lines (bodies : list str) (rest : str) :
  Forall lf_free bodies ->
  readlines (concat (map terminated bodies) ++ rest)
  = map terminated bodies ++ readlines rest.
Proof.
  induction 1 as [| body bodies Hb _ IH]; [reflexivity |].
  cbn [map concat]. rewrite <- app_assoc.
  rewrite readlines_terminated by exact Hb. rewrite IH. reflexivity.
Qed.

Lemma readlines_app_closed (before rest : str) :
  List.last before 10 = 10 ->
  readlines (before ++ rest) = readlines before ++ readlines rest.
Proof.
  intros Hlast.
  destruct (text_layout before) as (bodies & tail & Htext & Hbodies & Htail).
  destruct tail as [| c tail].
  2:{ exfalso. rewrite Htext in Hlast.
      apply (last_of_open_tail _ (c :: tail)) in Hlast;
        [exact Hlast | exact Htail | discriminate]. }
  rewrite app_nil_r in Htext. subst before.
  rewrite readlines_after_lines by exact Hbodies.
  rewrite <- (app_nil_r (concat (map terminated bodies))).
  rewrite readlines_after_lines by exact Hbodies.
  rewrite app_nil_r. reflexivity.
Qed.

Lemma rstrip_line_feed (value : str) : rstrip (value ++ [10]) = rstrip value.
Proof.
  induction value as [| c value IH]; [reflexivity |].
  cbn [app rstrip]. rewrite IH. reflexivity.
Qed.

(** The entry of a line [KEY=VALUE] for a target key: the value is the
    text after the first [=], without the white space at its end. *)
Lemma entry_of_target_line (name value : str) :
  In name secrets_to_encode ->
  entry_of_line (name ++ [61] ++ value ++ [10]) = Some (name, rstrip value).
Proof.
  intros Hname.
  destruct (target_name_facts name Hname)
    as ((c & r & Hcr & Hc & Hhash) & Hsplit & _ & _).
  assert (Hk : split1 61 name = None).
  { destruct (split1 61 name) as [[k v] |] eqn:E; [| reflexivity].
    rewrite (split1_app_Some _ _ _ _ _ E) in Hsplit. discriminate. }
  assert (Hstrip : strip (name ++ [61] ++ value ++ [10])
                   = name ++ 61 :: rstrip value).
  { unfold strip. rewrite Hcr. cbn [app lstrip]. rewrite Hc.
    change (c :: r ++ 61 :: value ++ [10])
      with ((c :: r) ++ 61 :: (value ++ [10])).
    rewrite rstrip_app_nonspace by reflexivity.
    rewrite rstrip_line_feed. reflexivity. }
  unfold entry_of_line. rewrite Hstrip, contains_eq_split1.
  rewrite split1_intro by exact Hk.
  rewrite Hcr. change (lit "#") with [35].
  cbn [app truthy startswith]. rewrite Hhash. reflexivity.
Qed.

(** The dictionary holds, for a target key, the value of the last line
    that sets it. *)
Lemma parse_env_target_line (before after name value : str) :
  In name secrets_to_encode ->
  List.last before 10 = 10 ->
  lf_free value ->
  ~ Exists (sets_key name) (readlines after) ->
  parse_env (before ++ (name ++ [61] ++ value ++ [10]) ++ after) !! name
  = Some (rstrip value).
Proof.
  intros Hname Hlast Hvalue Hafter.
  destruct (target_name_facts name Hname) as (_ & _ & _ & Hfree).
  unfold parse_env. rewrite readlines_app_closed by exact Hlast.
  assert (Hline : name ++ [61] ++ value ++ [10]
                  = terminated (name ++ [61] ++ value)).
  { unfold terminated. rewrite <- !app_assoc. reflexivity. }
  rewrite Hline at 1. rewrite readlines_terminated.
  2:{ apply Forall_app. split; [exact Hfree |].
      apply Forall_app. split; [| exact Hvalue].
      constructor; [discriminate | constructor]. }
  rewrite foldl_app. cbn [foldl]. rewrite lookup_after_lines by exact Hafter.
  unfold parse_line at 1. rewrite <- Hline.
  rewrite entry_of_target_line by exact Hname.
  apply lookup_insert_eq.
Qed.


(** *** Examples of runs *)

(** A file with one entry, for a key outside the list: nothing is
    appended and each of the seven target keys is reported as not found. *)
Example other_key_only :
  run (Some (lit "FOO=bar" ++ [10]))
  = World (Some (lit "FOO=bar" ++ [10]))
          (map not_found_report secrets_to_encode).
Proof. vm_compute. reflexivity. Qed.

(** A file that ends with a line feed gets the same line at each run. *)
Example closed_file_two_runs :
  env_file (main (run (Some (lit "AWS_REGION=us" ++ [10]))))
  = Some (lit "AWS_REGION=us" ++ [10]
          ++ lit "AWS_REGION_B64='dXM='" ++ [10]
          ++ lit "AWS_REGION_B64='dXM='" ++ [10]).
Proof. vm_compute. reflexivity. Qed.

(** Without a final line feed the first appended line continues the last
    line of the file, whose value the second run then encodes. *)
Example open_file_two_runs :
  env_file (main (run (Some (lit "AWS_REGION=us"))))
  = Some (lit "AWS_REGION=usAWS_REGION_B64='dXM='" ++ [10]
          ++ lit "AWS_REGION_B64='dXNBV1NfUkVHSU9OX0I2ND0nZFhNPSc='" ++ [10]).
Proof. vm_compute. reflexivity. Qed.

(** *** Reading one more line *)

Local Ltac Zify.zify_post_hook ::= Z.to_euclidean_division_equations.

Lemma lstrip_spaces (ws x : str) :
  forallb isspace ws = true -> lstrip (ws ++ x) = lstrip x.
Proof.
  induction ws as [| c ws IH]; [reflexivity |].
  cbn [forallb app lstrip]. intros H. apply andb_true_iff in H as [-> H].
  apply IH, H.
Qed.

Lemma plain_key_facts (k : str) :
  plain_key k = true ->
  split1 61 k = None /\ lf_free k
  /\ (k = [] \/ exists c r, k = c :: r /\ isspace c = false
                            /\ (35 =? c) = false).
Proof.
  unfold plain_key. rewrite !andb_true_iff. intros [[H1 H2] H3].
  split; [destruct (split1 61 k); [discriminate | reflexivity] |].
  split; [apply lf_free_forallb, H2 |].
  destruct k as [| c r]; [left; reflexivity | right].
  rewrite andb_true_iff, !negb_true_iff in H3. destruct H3 as [Hs Hh].
  exists c, r. rewrite (N.eqb_sym 35 c). auto.
Qed.

(** The entry of a line [KEY=VALUE]: the white space before the key and
    after the value is dropped, everything else is kept. *)
Lemma entry_of_entry_line (ws k v : str) :
  forallb isspace ws = true -> plain_key k = true ->
  entry_of_line (entry_line ws k v) = Some (k, rstrip v).
Proof.
  intros Hws Hk.
  destruct (plain_key_facts k Hk) as (Hsplit & _ & Hhead).
  assert (Hstrip : strip (entry_line ws k v) = k ++ 61 :: rstrip v).
  { unfold strip, entry_line. rewrite lstrip_spaces by exact Hws.
    assert (Hl : lstrip (k ++ [61] ++ v ++ [10]) = k ++ [61] ++ v ++ [10]).
    { destruct Hhead as [-> | (c & r & -> & Hc & _)]; [reflexivity |].
      cbn [app lstrip]. rewrite Hc. reflexivity. }
    rewrite Hl. change (k ++ [61] ++ v ++ [10]) with (k ++ 61 :: (v ++ [10])).
    rewrite rstrip_app_nonspace by reflexivity.
    rewrite rstrip_line_feed. reflexivity. }
  unfold entry_of_line. rewrite Hstrip, contains_eq_split1.
  rewrite split1_intro by exact Hsplit.
  assert (Hguard : truthy (k ++ 61 :: rstrip v)
                   && negb (startswith (lit "#") (k ++ 61 :: rstrip v)) = true).
  { change (lit "#") with [35].
    destruct Hhead as [-> | (c & r & -> & _ & Hh)]; [reflexivity |].
    cbn [app truthy startswith]. rewrite Hh. reflexivity. }
  rewrite Hguard. reflexivity.
Qed.

Lemma entry_line_terminated (ws k v : str) :
  entry_line ws k v = terminated (ws ++ k ++ [61] ++ v).
Proof. unfold entry_line, terminated. rewrite <- !app_assoc. reflexivity. Qed.

Lemma parse_env_app_line (text body : str) :
  List.last text 10 = 10 -> lf_free body ->
  parse_env (text ++ terminated body)
  = parse_line (parse_env text) (terminated body).
Proof.
  intros Hlast Hbody. unfold parse_env.
  rewrite readlines_app_closed by exact Hlast.
  rewrite <- (app_nil_r (terminated body)) at 1.
  rewrite readlines_terminated by exact Hbody.
  rewrite foldl_app. reflexivity.
Qed.

Lemma parse_env_add_entry (text ws k v : str) :
  List.last text 10 = 10 ->
  forallb isspace ws = true -> lf_free ws ->
  plain_key k = true ->
  lf_free v ->
  parse_env (text ++ entry_line ws k v) = <[k := rstrip v]> (parse_env text).
Proof.
  intros Hlast Hws Hwsfree Hk Hv.
  destruct (plain_key_facts k Hk) as (_ & Hkfree & _).
  rewrite entry_line_terminated.
  rewrite parse_env_app_line; [| exact Hlast |].
  - rewrite <- entry_line_terminated. unfold parse_line.
    rewrite entry_of_entry_line by assumption. reflexivity.
  - repeat apply Forall_app_2; try assumption.
    constructor; [discriminate | constructor].
Qed.

(** X1: adding a line [KEY=VALUE] to a file that is empty or ends with a
    line feed sets KEY to VALUE, without the white space at the end of
    VALUE, in the dictionary that [load_env_file] builds; an earlier value
    of KEY is overwritten and every other key keeps its value. White space
    before KEY is ignored; [=] signs and quotes in VALUE are kept. *)
Theorem added_line_sets_key (text ws k v : str) :
  List.last text 10 = 10 ->
  forallb isspace ws = true -> lf_free ws ->
  plain_key k = true ->
  lf_free v ->
  parse_env (text ++ entry_line ws k v) = <[k := rstrip v]> (parse_env text)
  /\ parse_env (text ++ entry_line ws k v) !! k = Some (rstrip v)
  /\ (forall k', k' <> k ->
        parse_env (text ++ entry_line ws k v) !! k' = parse_env text !! k').
Proof.
  intros Hlast Hws Hwsfree Hk Hv.
  pose proof (parse_env_add_entry text ws k v Hlast Hws Hwsfree Hk Hv) as Heq.
  rewrite Heq. split; [reflexivity |]. split.
  - apply lookup_insert_eq.
  - intros k' Hne. apply lookup_insert_ne. congruence.
Qed.

Lemma added_line_sets_key_witness :
  parse_env ((lit "ES_USER=old" ++ [10])
             ++ entry_line (lit "  ") (lit "ES_USER") (lit "a=b 'c'  "))
  = <[lit "ES_USER" := rstrip (lit "a=b 'c'  ")]>
      (parse_env (lit "ES_USER=old" ++ [10]))
  /\ parse_env ((lit "ES_USER=old" ++ [10])
                ++ entry_line (lit "  ") (lit "ES_USER") (lit "a=b 'c'  "))
     !! lit "ES_USER" = Some (rstrip (lit "a=b 'c'  "))
  /\ (forall k', k' <> lit "ES_USER" ->
        parse_env ((lit "ES_USER=old" ++ [10])
                   ++ entry_line (lit "  ") (lit "ES_USER")
                                 (lit "a=b 'c'  ")) !! k'
        = parse_env (lit "ES_USER=old" ++ [10]) !! k').
Proof.
  apply (added_line_sets_key (lit "ES_USER=old" ++ [10]) (lit "  ")
           (lit "ES_USER") (lit "a=b 'c'  ")).
  - reflexivity.
  - reflexivity.
  - apply lf_free_forallb. reflexivity.
  - reflexivity.
  - apply lf_free_forallb. reflexivity.
Defined.

Lemma lstrip_line_feed (l : str) :
  lstrip (l ++ [10]) = match lstrip l with [] => [] | m => m ++ [10] end.
Proof.
  induction l as [| c l IH]; [reflexivity |].
  cbn [app lstrip]. destruct (isspace c); [exact IH | reflexivity].
Qed.

Lemma strip_line_feed (l : str) : strip (l ++ [10]) = strip l.
Proof.
  unfold strip. rewrite lstrip_line_feed.
  destruct (lstrip l) as [| c m]; [reflexivity |].
  apply rstrip_line_feed.
Qed.

(** X2: adding a blank line, a comment line (even one with [=] in it) or
    a line without [=] to a file that is empty or ends with a line feed
    leaves the dictionary of [load_env_file] as it was. *)
Theorem added_line_ignored (text line : str) :
  List.last text 10 = 10 ->
  lf_free line ->
  strip line = [] \/ startswith (lit "#") (strip line) = true
  \/ contains (lit "=") (strip line) = false ->
  parse_env (text ++ line ++ [10]) = parse_env text.
Proof.
  intros Hlast Hline Hcase.
  change (line ++ [10]) with (terminated line).
  rewrite parse_env_app_line by assumption.
  unfold parse_line. rewrite entry_of_line_ignored; [reflexivity |].
  unfold terminated. rewrite strip_line_feed. exact Hcase.
Qed.

Lemma added_line_ignored_witness :
  parse_env ((lit "ES_USER=me" ++ [10]) ++ lit "  # ES_USER=you" ++ [10])
  = parse_env (lit "ES_USER=me" ++ [10]).
Proof.
  apply (added_line_ignored (lit "ES_USER=me" ++ [10]) (lit "  # ES_USER=you")).
  - reflexivity.
  - apply lf_free_forallb. reflexivity.
  - right. left. reflexivity.
Defined.

(** *** White space before [=] *)

Lemma target_name_plain (name suffix : str) :
  In name secrets_to_encode ->
  split1 61 suffix = None -> lf_free suffix ->
  plain_key (name ++ suffix) = true.
Proof.
  intros Hname Hsplit Hfree.
  destruct (target_name_facts name Hname)
    as ((c & r & Hcr & Hc & Hhash) & Hno & _ & Hlf).
  assert (Hk : split1 61 name = None).
  { destruct (split1 61 name) as [[a b] |] eqn:E; [| reflexivity].
    rewrite (split1_app_Some _ _ _ _ _ E) in Hno. discriminate. }
  unfold plain_key. rewrite !andb_true_iff. split; [split |].
  - rewrite split1_app_None by exact Hk. rewrite Hsplit. reflexivity.
  - apply forallb_forall. intros x Hx. apply negb_true_iff, N.eqb_neq.
    apply in_app_or in Hx as [Hx | Hx].
    + unfold lf_free in Hlf. rewrite List.Forall_forall in Hlf. auto.
    + unfold lf_free in Hfree. rewrite List.Forall_forall in Hfree. auto.
  - rewrite Hcr. cbn [app]. rewrite Hc, (N.eqb_sym c 35), Hhash. reflexivity.
Qed.

Lemma target_names_end (name : str) :
  In name secrets_to_encode -> List.last name 0 <> 32.
Proof.
  intros Hname. repeat destruct Hname as [<- | Hname];
    try (vm_compute; discriminate).
  destruct Hname.
Qed.

Lemma lookup_singleton_targets (k v : str) :
  ~ In k secrets_to_encode ->
  map (report {[k := v]}) secrets_to_encode
  = map not_found_report secrets_to_encode
  /\ present {[k := v]} = [].
Proof.
  intros Hk.
  assert (Hnone : forall name, In name secrets_to_encode ->
                               ({[k := v]} : gmap str str) !! name = None).
  { intros name Hname. apply lookup_singleton_ne. intros ->. auto. }
  split.
  - apply map_ext_in. intros name Hname. unfold report.
    rewrite Hnone by exact Hname. reflexivity.
  - unfold present.
    destruct (List.filter (has_key {[k := v]}) secrets_to_encode)
      as [| name l] eqn:E; [reflexivity |].
    assert (Hin : In name (List.filter (has_key {[k := v]}) secrets_to_encode))
      by (rewrite E; left; reflexivity).
    apply filter_In in Hin as [Hname Hhas]. unfold has_key in Hhas.
    rewrite Hnone in Hhas by exact Hname. discriminate.
Qed.

Lemma spaces_no_equals (spaces : str) :
  forallb isspace spaces = true -> split1 61 spaces = None.
Proof.
  induction spaces as [| c spaces IH]; [reflexivity |].
  cbn [forallb split1]. intros H. apply andb_true_iff in H as [Hc H].
  destruct (N.eqb_spec c 61) as [-> | _]; [discriminate |].
  rewrite IH by exact H. reflexivity.
Qed.

Lemma last_is_space (name spaces : str) :
  spaces <> [] -> forallb isspace spaces = true ->
  isspace (List.last (name ++ spaces) 0) = true.
Proof.
  intros Hne Hall.
  assert (Hlast : isspace (List.last spaces 0) = true).
  { induction spaces as [| c spaces IH]; [congruence |].
    cbn [forallb] in Hall. apply andb_true_iff in Hall as [Hc Hall].
    destruct spaces as [| d spaces]; [exact Hc |].
    apply IH; [discriminate | exact Hall]. }
  induction name as [| x name IH]; [exact Hlast |].
  cbn [app]. destruct (name ++ spaces) as [| y r] eqn:E; [| exact IH].
  apply app_eq_nil in E as [_ ->]. congruence.
Qed.

Lemma target_last_not_space (name : str) :
  In name secrets_to_encode -> isspace (List.last name 0) = false.
Proof.
  intros Hname. repeat destruct Hname as [<- | Hname];
    try (vm_compute; reflexivity).
  destruct Hname.
Qed.

(** X3: a line that has white space between a target key and [=] does
    not set that key: the dictionary gets the key with the white space at
    its end, so on a file made of such a line the run reports all seven
    target keys as not found and appends nothing. *)
Theorem spaced_key_is_not_found (name spaces v : str) :
  In name secrets_to_encode ->
  spaces <> [] -> forallb isspace spaces = true -> lf_free spaces ->
  lf_free v ->
  parse_env (name ++ spaces ++ [61] ++ v ++ [10])
  = {[name ++ spaces := rstrip v]}
  /\ run (Some (name ++ spaces ++ [61] ++ v ++ [10]))
     = World (Some (name ++ spaces ++ [61] ++ v ++ [10]))
             (map not_found_report secrets_to_encode).
Proof.
  intros Hname Hne Hspaces Hfree Hv.
  assert (Hplain : plain_key (name ++ spaces) = true).
  { apply target_name_plain;
      [exact Hname | apply spaces_no_equals, Hspaces | exact Hfree]. }
  assert (Henv : parse_env (name ++ spaces ++ [61] ++ v ++ [10])
                 = {[name ++ spaces := rstrip v]}).
  { pose proof (parse_env_add_entry [] [] (name ++ spaces) v
                  eq_refl eq_refl (List.Forall_nil _) Hplain Hv) as H.
    unfold entry_line in H. cbn [app] in H |- *.
    rewrite <- app_assoc in H. rewrite H. apply insert_empty. }
  split; [exact Henv |].
  assert (Hother : ~ In (name ++ spaces) secrets_to_encode).
  { intros Hin. apply target_last_not_space in Hin.
    rewrite last_is_space in Hin by assumption. discriminate. }
  destruct (lookup_singleton_targets (name ++ spaces) (rstrip v) Hother)
    as [Hreports Hpresent].
  unfold run. rewrite main_existing, Henv.
  rewrite map_size_singleton. cbn [Nat.eqb].
  unfold appended. rewrite Hpresent, Hreports. cbn [map concat app].
  rewrite app_nil_r. reflexivity.
Qed.

Lemma spaced_key_is_not_found_witness :
  parse_env (lit "AWS_REGION" ++ lit " " ++ [61] ++ lit " us-east-1" ++ [10])
  = {[lit "AWS_REGION" ++ lit " " := rstrip (lit " us-east-1")]}
  /\ run (Some (lit "AWS_REGION" ++ lit " " ++ [61] ++ lit " us-east-1"
                ++ [10]))
     = World (Some (lit "AWS_REGION" ++ lit " " ++ [61] ++ lit " us-east-1"
                    ++ [10]))
             (map not_found_report secrets_to_encode).
Proof.
  apply (spaced_key_is_not_found (lit "AWS_REGION") (lit " ")
           (lit " us-east-1")).
  - vm_compute. auto.
  - discriminate.
  - reflexivity.
  - apply lf_free_forallb. reflexivity.
  - apply lf_free_forallb. reflexivity.
Defined.

(** *** Reading back what a run wrote *)

Lemma rstrip_quoted (e : str) : rstrip (quoted e) = quoted e.
Proof.
  unfold quoted. change ([39] ++ e ++ [39]) with ((39 :: e) ++ 39 :: []).
  rewrite rstrip_app_nonspace by reflexivity. reflexivity.
Qed.

Lemma b64_line_entry_line (name e : str) :
  b64_line name e = entry_line [] (name ++ lit "_B64") (quoted e).
Proof.
  unfold b64_line, entry_line, quoted. rewrite b64_entry_shape.
  cbn [app]. rewrite <- !app_assoc. cbn [app]. rewrite <- !app_assoc.
  reflexivity.
Qed.

Lemma read_back_line (text name s : str) :
  List.last text 10 = 10 -> In name secrets_to_encode ->
  parse_env (text ++ b64_line name (encode_secret s))
  = <[name ++ lit "_B64" := quoted (encode_secret s)]> (parse_env text).
Proof.
  intros Hlast Hname. rewrite b64_line_entry_line.
  rewrite parse_env_add_entry; try assumption; try reflexivity.
  - rewrite rstrip_quoted. reflexivity.
  - constructor.
  - apply target_name_plain; [exact Hname | reflexivity |].
    apply lf_free_forallb. reflexivity.
  - unfold quoted. rewrite encode_secret_b64.
    repeat apply Forall_app_2; try apply b64encode_lf_free;
      apply lf_free_forallb; reflexivity.
Qed.

Lemma last_after_line (text body : str) :
  List.last (text ++ body ++ [10]) 10 = 10.
Proof. rewrite app_assoc. apply List.last_last. Qed.

Lemma lookup_after_other_entries (env_vars : gmap str str) (names : list str)
    (text key : str) :
  List.last text 10 = 10 ->
  Forall (fun name => In name secrets_to_encode) names ->
  ~ In key names ->
  parse_env (text ++ concat (map (fun n => entry_for env_vars n ++ [10]) names))
    !! (key ++ lit "_B64")
  = parse_env text !! (key ++ lit "_B64").
Proof.
  intros Hlast Hnames. revert text Hlast.
  induction Hnames as [| n names Hn _ IH]; intros text Hlast Hkey.
  - cbn [map concat]. rewrite app_nil_r. reflexivity.
  - cbn [map concat]. rewrite app_assoc.
    rewrite IH; [| apply last_after_line | intros H; apply Hkey; right; exact H].
    change (entry_for env_vars n ++ [10])
      with (b64_line n (encode_secret (default [] (env_vars !! n)))).
    rewrite read_back_line by assumption.
    apply lookup_insert_ne. intros Heq. apply app_inv_tail in Heq.
    apply Hkey. left. exact Heq.
Qed.

Lemma lookup_after_entries_written (env_vars : gmap str str)
    (names : list str) (text key : str) :
  List.last text 10 = 10 ->
  Forall (fun name => In name secrets_to_encode) names ->
  List.NoDup names -> In key names ->
  parse_env (text ++ concat (map (fun n => entry_for env_vars n ++ [10]) names))
    !! (key ++ lit "_B64")
  = Some (quoted (encode_secret (default [] (env_vars !! key)))).
Proof.
  intros Hlast Hnames. revert text Hlast.
  induction Hnames as [| n names Hn Hnames IH]; intros text Hlast Hdup Hkey;
    [destruct Hkey |].
  apply List.NoDup_cons_iff in Hdup as [Hfresh Hdup].
  cbn [map concat]. rewrite app_assoc.
  destruct Hkey as [-> | Hkey].
  - rewrite lookup_after_other_entries;
      [| apply last_after_line | exact Hnames | exact Hfresh].
    change (entry_for env_vars key ++ [10])
      with (b64_line key (encode_secret (default [] (env_vars !! key)))).
    rewrite read_back_line by assumption. apply lookup_insert_eq.
  - apply IH; [apply last_after_line | exact Hdup | exact Hkey].
Qed.

Lemma secrets_NoDup : List.NoDup secrets_to_encode.
Proof.
  vm_compute. repeat constructor; cbn; intuition discriminate.
Qed.

(** X4: after a run on a file that is empty or ends with a line feed, the
    next [load_env_file] reads every line that the run wrote: for each
    target key with a value it finds the key KEY_B64, and its value is the
    encoded value with the two single quotes around it. *)
Theorem written_lines_are_read_back (text name value : str) :
  List.last text 10 = 10 ->
  In name secrets_to_encode ->
  parse_env text !! name = Some value ->
  parse_env (text ++ concat (appended (parse_env text)))
    !! (name ++ lit "_B64")
  = Some (quoted (encode_secret value)).
Proof.
  intros Hlast Hname Hvalue. unfold appended.
  rewrite lookup_after_entries_written.
  - rewrite Hvalue. reflexivity.
  - exact Hlast.
  - apply present_targets.
  - unfold present. apply List.NoDup_filter, secrets_NoDup.
  - apply present_In. split; [exact Hname | eauto].
Qed.

Lemma written_lines_are_read_back_witness :
  parse_env ((lit "ES_USER=me" ++ [10])
             ++ concat (appended (parse_env (lit "ES_USER=me" ++ [10]))))
    !! (lit "ES_USER" ++ lit "_B64")
  = Some (quoted (encode_secret (lit "me"))).
Proof.
  apply (written_lines_are_read_back (lit "ES_USER=me" ++ [10])
           (lit "ES_USER") (lit "me")).
  - reflexivity.
  - vm_compute. auto 10.
  - vm_compute. reflexivity.
Defined.

(** *** The encoded value *)

Lemma b64encode_length (bs : bytes) :
  length (b64encode bs) = b64_length (length bs).
Proof.
  unfold b64_length.
  induction bs as [| a | a b | a b c rest IH] using list_ind_by_three;
    try reflexivity.
  change (b64encode (a :: b :: c :: rest))
    with (b64char (a / 4) :: b64char ((a mod 4) * 16 + b / 16)
          :: b64char ((b mod 16) * 4 + c / 64) :: b64char (c mod 64)
          :: b64encode rest).
  cbn [length]. rewrite IH.
  replace (S (S (S (length rest))) + 2)%nat
    with (length rest + 2 + 1 * 3)%nat by lia.
  rewrite Nat.div_add by discriminate. lia.
Qed.

Lemma b64char_in_alphabet (i : N) : i < 64 -> In (b64char i) alphabet.
Proof.
  intros Hi. unfold b64char. apply nth_In.
  change (length alphabet) with 64%nat. lia.
Qed.

Lemma b64encode_symbols (bs : bytes) :
  Forall is_byte bs -> Forall b64_symbol (b64encode bs).
Proof.
  assert (Hchar : forall i, i < 64 -> b64_symbol (b64char i)).
  { intros i Hi. left. apply b64char_in_alphabet, Hi. }
  assert (Hpad : b64_symbol pad) by (right; reflexivity).
  unfold is_byte.
  induction bs as [| a | a b | a b c rest IH] using list_ind_by_three;
    intros Hbs; [apply List.Forall_nil | | |].
  - inversion_clear Hbs. cbn [b64encode].
    apply List.Forall_cons; [apply Hchar; lia |].
    apply List.Forall_cons; [apply Hchar; lia |].
    apply List.Forall_cons; [exact Hpad |].
    apply List.Forall_cons; [exact Hpad | apply List.Forall_nil].
  - inversion_clear Hbs as [| ? ? Ha Hbs']. inversion_clear Hbs'.
    cbn [b64encode].
    apply List.Forall_cons; [apply Hchar; lia |].
    apply List.Forall_cons; [apply Hchar; lia |].
    apply List.Forall_cons; [apply Hchar; lia |].
    apply List.Forall_cons; [exact Hpad | apply List.Forall_nil].
  - inversion_clear Hbs as [| ? ? Ha Hbs1].
    inversion_clear Hbs1 as [| ? ? Hb Hbs2].
    inversion_clear Hbs2 as [| ? ? Hc Hrest].
    change (b64encode (a :: b :: c :: rest))
      with (b64char (a / 4) :: b64char ((a mod 4) * 16 + b / 16)
            :: b64char ((b mod 16) * 4 + c / 64) :: b64char (c mod 64)
            :: b64encode rest).
    apply List.Forall_cons; [apply Hchar; lia |].
    apply List.Forall_cons; [apply Hchar; lia |].
    apply List.Forall_cons; [apply Hchar; lia |].
    apply List.Forall_cons; [apply Hchar; lia |].
    apply IH, Hrest.
Qed.

Lemma b64_symbol_plain (c : N) :
  b64_symbol c -> c <> 39 /\ isspace c = false.
Proof.
  intros [Hc | ->]; [| split; [discriminate | reflexivity]].
  assert (H : forallb (fun c => negb (c =? 39) && negb (isspace c)) alphabet
              = true) by (vm_compute; reflexivity).
  rewrite forallb_forall in H. specialize (H c Hc).
  apply andb_true_iff in H as [H1 H2].
  apply negb_true_iff in H1, H2. apply N.eqb_neq in H1. auto.
Qed.

Lemma utf8_encode_nil_inv (s : str) : Utf8.encode s = [] -> s = [].
Proof.
  destruct s as [| c s]; [reflexivity |].
  unfold Utf8.encode. cbn [flat_map]. unfold Utf8.encode_char.
  repeat match goal with
         | |- context [?x <? ?y] => destruct (x <? y)
         end; discriminate.
Qed.

(** X5: for a secret of Unicode scalar values of [n] UTF-8 bytes, the
    encoded value has 4 * ceil(n / 3) characters, each a letter or digit of
    the base64 alphabet, [+], [/] or [=], hence no quote and no white
    space; it is empty exactly when the secret is empty. *)
Theorem encoded_value_shape (secret : str) :
  Utf8.valid_str secret ->
  length (encode_secret secret) = b64_length (length (Utf8.encode secret))
  /\ Forall b64_symbol (encode_secret secret)
  /\ Forall (fun c => c <> 39 /\ isspace c = false) (encode_secret secret)
  /\ (encode_secret secret = [] <-> secret = []).
Proof.
  intros Hvalid. rewrite encode_secret_b64.
  pose proof (b64encode_symbols _ (encode_bytes secret Hvalid)) as Hsym.
  split; [apply b64encode_length |].
  split; [exact Hsym |]. split.
  - eapply List.Forall_impl; [| exact Hsym]. apply b64_symbol_plain.
  - split.
    + intros H. apply utf8_encode_nil_inv, b64encode_nil_inv, H.
    + intros ->. reflexivity.
Qed.

Lemma encoded_value_shape_witness :
  length (encode_secret (lit "s3cr3t!"))
  = b64_length (length (Utf8.encode (lit "s3cr3t!")))
  /\ Forall b64_symbol (encode_secret (lit "s3cr3t!"))
  /\ Forall (fun c => c <> 39 /\ isspace c = false)
            (encode_secret (lit "s3cr3t!"))
  /\ (encode_secret (lit "s3cr3t!") = [] <-> lit "s3cr3t!" = []).
Proof.
  apply (encoded_value_shape (lit "s3cr3t!")). reflexivity.
Defined.

(** X6: two different secrets never get the same encoded value. *)
Theorem encode_secret_injective (secret1 secret2 : str) :
  Utf8.valid_str secret1 -> Utf8.valid_str secret2 ->
  encode_secret secret1 = encode_secret secret2 ->
  secret1 = secret2.
Proof.
  intros H1 H2 Heq.
  pose proof (encode_secret_round_trip secret1 H1) as R1.
  pose proof (encode_secret_round_trip secret2 H2) as R2.
  rewrite Heq in R1. congruence.
Qed.

Lemma encode_secret_injective_witness : lit "pw" = lit "pw".
Proof.
  apply (encode_secret_injective (lit "pw") (lit "pw"));
    reflexivity.
Defined.

(** *** What a run prints *)

(** X7: when the dictionary is not empty a run prints exactly one line for
    each of the seven target keys, in the order of the list: for a key
    with a value the line shows the same encoded value that is written to
    the file between quotes, for a key without one the "not found"
    report. *)
Theorem run_prints_one_line_per_key (text : str) (out : list str) :
  parse_env text <> ∅ ->
  let env_vars := parse_env text in
  let w := main (World (Some text) out) in
  stdout w = out ++ map (report env_vars) secrets_to_encode
  /\ length (stdout w) = (length out + 7)%nat
  /\ (forall name value,
        In name secrets_to_encode -> env_vars !! name = Some value ->
        report env_vars name = encoded_report name (encode_secret value)
        /\ In (b64_line name (encode_secret value)) (appended env_vars))
  /\ (forall name,
        In name secrets_to_encode -> env_vars !! name = None ->
        report env_vars name = not_found_report name).
Proof.
  intros Hne env_vars w.
  assert (Hout : stdout w = out ++ map (report env_vars) secrets_to_encode).
  { subst w. rewrite main_existing.
    destruct (size (parse_env text) =? 0)%nat eqn:E; [| reflexivity].
    apply size_zero_empty in E. contradiction. }
  split; [exact Hout |]. split; [| split].
  - rewrite Hout, length_app, length_map. reflexivity.
  - intros name value Hname Hvalue. unfold report. rewrite Hvalue.
    split; [reflexivity |]. unfold appended. apply in_map_iff.
    exists name. split.
    + unfold entry_for. rewrite Hvalue. reflexivity.
    + apply present_In. split; [exact Hname | eauto].
  - intros name _ Hnone. unfold report. rewrite Hnone. reflexivity.
Qed.

Lemma run_prints_one_line_per_key_witness :
  let env_vars := parse_env (lit "ES_USER=me" ++ [10]) in
  let w := main (World (Some (lit "ES_USER=me" ++ [10])) []) in
  stdout w = [] ++ map (report env_vars) secrets_to_encode
  /\ length (stdout w) = (length ([] : list str) + 7)%nat
  /\ (forall name value,
        In name secrets_to_encode -> env_vars !! name = Some value ->
        report env_vars name = encoded_report name (encode_secret value)
        /\ In (b64_line name (encode_secret value)) (appended env_vars))
  /\ (forall name,
        In name secrets_to_encode -> env_vars !! name = None ->
        report env_vars name = not_found_report name).
Proof.
  apply (run_prints_one_line_per_key (lit "ES_USER=me" ++ [10]) []).
  vm_compute. discriminate.
Defined.

(** *** The value that is encoded *)

Lemma startswith_inv (p s : str) :
  startswith p s = true -> exists t, s = p ++ t.
Proof.
  revert s. induction p as [| a p IH]; intros s H; [exists s; reflexivity |].
  destruct s as [| b s]; [discriminate |].
  cbn [startswith] in H. apply andb_true_iff in H as [Hab H].
  apply N.eqb_eq in Hab. subst b.
  destruct (IH s H) as [t ->]. exists t. reflexivity.
Qed.

(** A line written for one target key does not start like the line of
    another. *)
Lemma entry_key_unique (other name e : str) :
  In other secrets_to_encode -> In name secrets_to_encode ->
  startswith (name ++ lit "_B64=") (b64_entry other e ++ [10]) = true ->
  other = name.
Proof.
  intros Hother Hname Hstart.
  destruct (target_name_facts other Hother) as (_ & Ho & _ & _).
  destruct (target_name_facts name Hname) as (_ & Hn & _ & _).
  apply startswith_inv in Hstart as [t Ht].
  rewrite b64_entry_shape in Ht.
  change (lit "_B64=") with (lit "_B64" ++ [61]) in Ht.
  apply (f_equal (split1 61)) in Ht.
  rewrite <- !app_assoc in Ht. cbn [app] in Ht.
  rewrite !app_assoc in Ht.
  rewrite (split1_intro 61 (other ++ lit "_B64")) in Ht by exact Ho.
  rewrite (split1_intro 61 (name ++ lit "_B64")) in Ht by exact Hn.
  injection Ht as Hkey _. apply app_inv_tail in Hkey. exact Hkey.
Qed.

(** X18: for a target key, the run encodes the value of the last line of
    the file that sets the key, without the white space at the end of that
    value: earlier lines for the same key are not encoded. *)
Theorem last_definition_is_encoded (before after name value : str) :
  In name secrets_to_encode ->
  List.last before 10 = 10 ->
  lf_free value ->
  ~ Exists (sets_key name) (readlines after) ->
  let text := before ++ (name ++ [61] ++ value ++ [10]) ++ after in
  parse_env text !! name = Some (rstrip value)
  /\ In (b64_line name (encode_secret (rstrip value)))
        (appended (parse_env text))
  /\ (forall line, In line (appended (parse_env text)) ->
        startswith (name ++ lit "_B64=") line = true ->
        line = b64_line name (encode_secret (rstrip value))).
Proof.
  intros Hname Hlast Hvalue Hafter text.
  pose proof (parse_env_target_line before after name value
                Hname Hlast Hvalue Hafter) as Hlookup.
  fold text in Hlookup.
  split; [exact Hlookup |]. split.
  - unfold appended. apply in_map_iff. exists name. split.
    + unfold entry_for. rewrite Hlookup. reflexivity.
    + apply present_In. split; [exact Hname | eauto].
  - intros line Hline Hstart. unfold appended in Hline.
    apply in_map_iff in Hline as (other & <- & Hother).
    apply present_In in Hother as [Hother _].
    assert (Heq : other = name).
    { apply (entry_key_unique other name _ Hother Hname Hstart). }
    subst other. unfold entry_for. rewrite Hlookup. reflexivity.
Qed.

Lemma last_definition_is_encoded_witness :
  let text := (lit "ES_USER=old" ++ [10])
              ++ (lit "ES_USER" ++ [61] ++ lit "new  " ++ [10])
              ++ (lit "FOO=1" ++ [10]) in
  parse_env text !! lit "ES_USER" = Some (rstrip (lit "new  "))
  /\ In (b64_line (lit "ES_USER") (encode_secret (rstrip (lit "new  "))))
        (appended (parse_env text))
  /\ (forall line, In line (appended (parse_env text)) ->
        startswith (lit "ES_USER" ++ lit "_B64=") line = true ->
        line = b64_line (lit "ES_USER") (encode_secret (rstrip (lit "new  ")))).
Proof.
  apply (last_definition_is_encoded (lit "ES_USER=old" ++ [10])
           (lit "FOO=1" ++ [10]) (lit "ES_USER") (lit "new  ")).
  - vm_compute. auto 10.
  - reflexivity.
  - apply lf_free_forallb. reflexivity.
  - rewrite List.Exists_exists. intros (line & Hline & Hkey).
    vm_compute in Hline. destruct Hline as [<- | []].
    vm_compute in Hkey. discriminate.
Defined.

(** *** The value of a line and its round trip *)

Lemma valid_str_rstrip (value : str) :
  Utf8.valid_str value -> Utf8.valid_str (rstrip value).
Proof.
  unfold Utf8.valid_str. intros Hv.
  destruct (rstrip_prefix value) as [t Ht]. rewrite Ht in Hv.
  rewrite forallb_app in Hv. apply andb_true_iff in Hv as [Hv _]. exact Hv.
Qed.

(** The entry of a last line [KEY=VALUE] that has no line feed. *)
Lemma entry_of_target_open_line (name value : str) :
  In name secrets_to_encode ->
  entry_of_line (name ++ [61] ++ value) = Some (name, rstrip value).
Proof.
  intros Hname.
  destruct (target_name_facts name Hname)
    as ((c & r & Hcr & Hc & Hhash) & Hsplit & _ & _).
  assert (Hk : split1 61 name = None).
  { destruct (split1 61 name) as [[k v] |] eqn:E; [| reflexivity].
    rewrite (split1_app_Some _ _ _ _ _ E) in Hsplit. discriminate. }
  assert (Hstrip : strip (name ++ [61] ++ value) = name ++ 61 :: rstrip value).
  { unfold strip. rewrite Hcr. cbn [app lstrip]. rewrite Hc.
    change (c :: r ++ 61 :: value) with ((c :: r) ++ 61 :: value).
    rewrite rstrip_app_nonspace by reflexivity. reflexivity. }
  unfold entry_of_line. rewrite Hstrip, contains_eq_split1.
  rewrite split1_intro by exact Hk.
  rewrite Hcr. change (lit "#") with [35].
  cbn [app truthy startswith]. rewrite Hhash. reflexivity.
Qed.

(** The dictionary holds, for a target key, the value of the last line
    that sets it, whether or not the file ends with a line feed. *)
Lemma parse_env_last_line (before after name value eol : str) :
  In name secrets_to_encode ->
  List.last before 10 = 10 ->
  lf_free value ->
  line_end eol after ->
  ~ Exists (sets_key name) (readlines after) ->
  parse_env (before ++ (name ++ [61] ++ value ++ eol) ++ after) !! name
  = Some (rstrip value).
Proof.
  intros Hname Hlast Hvalue [-> | [-> ->]] Hafter.
  - apply parse_env_target_line; assumption.
  - destruct (target_name_facts name Hname)
      as ((c & r & Hcr & _) & _ & _ & Hfree).
    rewrite !app_nil_r. unfold parse_env.
    rewrite readlines_app_closed by exact Hlast.
    rewrite (readlines_open (name ++ [61] ++ value)).
    + rewrite foldl_app. cbn [foldl]. unfold parse_line at 1.
      rewrite entry_of_target_open_line by exact Hname.
      apply lookup_insert_eq.
    + apply Forall_app. split; [exact Hfree |].
      apply Forall_app. split; [| exact Hvalue].
      constructor; [discriminate | constructor].
    + rewrite Hcr. discriminate.
Qed.

(** Replacing the string literals of a hypothesis, or of the goal, by
    their code points. *)
Ltac explicit_literals H :=
  repeat match type of H with
         | context [lit ?s] =>
             let x := eval vm_compute in (lit s) in
             change (lit s) with x in H
         end.

Ltac explicit_literals_goal :=
  repeat match goal with
         | |- context [lit ?s] =>
             let x := eval vm_compute in (lit s) in
             change (lit s) with x
         end.

(** When the appended text is the one line [AWS_REGION_B64='dXM='], the
    value on the line of [AWS_REGION] is [dXM=], wherever one looks for
    the line. *)
Lemma region_line_value (e before after : str) :
  before ++ b64_line (lit "AWS_REGION") e ++ after
  = lit "AWS_REGION_B64='dXM='" ++ [10] ->
  e = lit "dXM=".
Proof.
  unfold b64_line, b64_entry. intros H.
  explicit_literals H. explicit_literals_goal.
  destruct before as [| c before].
  - apply (f_equal (drop 16%nat)) in H.
    destruct e as [| e0 [| e1 [| e2 [| e3 [| e4 e]]]]];
      cbn [app drop] in H; try discriminate H.
    + congruence.
    + exfalso. apply (f_equal (drop 5%nat)) in H.
      destruct e as [| e5 [| e6 e]]; cbn [app drop] in H; discriminate H.
  - exfalso.
    repeat (cbn [app] in H; try discriminate H;
            apply (f_equal (drop 1%nat)) in H; cbn [drop] in H;
            destruct before as [| ? before]).
Qed.

(** A file with two lines for [AWS_REGION]: the run appends the one line
    [AWS_REGION_B64='dXM='], and [dXM=] decodes to [us], which is neither
    the value [eu] of the first line nor the value of the second line with
    the two spaces at its end. *)
Lemma line_value_is_not_reproduced :
  let text := lit "AWS_REGION=eu" ++ [10] ++ lit "AWS_REGION=us  " ++ [10] in
  ~ line_value_round_trip text (lit "AWS_REGION") (lit "eu")
  /\ ~ line_value_round_trip text (lit "AWS_REGION") (lit "us  ").
Proof.
  intros text.
  assert (Hrun : env_file (run (Some text))
                 = Some (text ++ lit "AWS_REGION_B64='dXM='" ++ [10])).
  { vm_compute. reflexivity. }
  assert (Hvalue : forall value e before after,
            env_file (run (Some text))
            = Some (text ++ before ++ b64_line (lit "AWS_REGION") e ++ after) ->
            Base64.b64decode e ≫= Utf8.decode = Some value ->
            value = lit "us").
  { intros value e before after Hfile Hdec.
    rewrite Hrun in Hfile. apply (inj Some) in Hfile.
    apply app_inv_head in Hfile. symmetry in Hfile.
    apply region_line_value in Hfile. subst e.
    vm_compute in Hdec. injection Hdec as <-. reflexivity. }
  split; intros H; destruct H as (e & before & after & Hfile & Hdec);
    try (vm_compute; auto 10).
  - apply (Hvalue _ _ _ _ Hfile) in Hdec. vm_compute in Hdec.
    discriminate Hdec.
  - apply (Hvalue _ _ _ _ Hfile) in Hdec. vm_compute in Hdec.
    discriminate Hdec.
Qed.

(** C3: when the last line that sets a target key [KEY] is [KEY=VALUE],
    the run appends the line of [KEY], and the standard base64 decoding of
    the value on that line, read as UTF-8, is [VALUE] without the white
    space at its end: it is [VALUE] exactly when [VALUE] does not end in
    white space.  Decoding the encoding of any UTF-8 string gives the
    string back. *)
Theorem last_line_value_round_trip (before after name value eol : str) :
  In name secrets_to_encode ->
  List.last before 10 = 10 ->
  lf_free value ->
  line_end eol after ->
  ~ Exists (sets_key name) (readlines after) ->
  Utf8.valid_str value ->
  let text := before ++ (name ++ [61] ++ value ++ eol) ++ after in
  (exists (encoded_value written_before written_after : str),
     env_file (run (Some text))
     = Some (text ++ written_before ++ b64_line name encoded_value
                  ++ written_after)
     /\ encoded_value = encode_secret (rstrip value)
     /\ Base64.b64decode encoded_value ≫= Utf8.decode = Some (rstrip value)
     /\ (Base64.b64decode encoded_value ≫= Utf8.decode = Some value
         <-> rstrip value = value))
  /\ (forall v : str,
        Utf8.valid_str v ->
        Base64.b64decode (encode_secret v) ≫= Utf8.decode = Some v).
Proof.
  intros Hname Hlast Hvalue Heol Hafter Hvalid text.
  split; [| intros v Hv; apply encode_secret_round_trip, Hv].
  pose proof (parse_env_last_line before after name value eol
                Hname Hlast Hvalue Heol Hafter) as Hlookup.
  fold text in Hlookup.
  assert (Hin : In name (present (parse_env text))).
  { apply present_In. split; [exact Hname | eauto]. }
  apply in_split in Hin as (l1 & l2 & Hsplit).
  assert (Hdec : Base64.b64decode (encode_secret (rstrip value))
                 ≫= Utf8.decode = Some (rstrip value)).
  { apply encode_secret_round_trip, valid_str_rstrip, Hvalid. }
  exists (encode_secret (rstrip value)),
         (concat (map (fun n => entry_for (parse_env text) n ++ [10]) l1)),
         (concat (map (fun n => entry_for (parse_env text) n ++ [10]) l2)).
  split; [| split; [reflexivity | split; [exact Hdec |]]].
  - unfold run. rewrite main_existing_file. unfold appended. rewrite Hsplit.
    rewrite map_app, concat_app. cbn [map concat].
    unfold entry_for at 2. rewrite Hlookup. reflexivity.
  - rewrite Hdec. split; [intros [= H]; exact H | intros ->; reflexivity].
Qed.

Lemma last_line_value_round_trip_witness :
  let text := (lit "AWS_REGION=eu" ++ [10])
              ++ (lit "AWS_REGION" ++ [61] ++ lit "us  " ++ [10]) ++ [] in
  (exists (encoded_value written_before written_after : str),
     env_file (run (Some text))
     = Some (text ++ written_before
                  ++ b64_line (lit "AWS_REGION") encoded_value
                  ++ written_after)
     /\ encoded_value = encode_secret (rstrip (lit "us  "))
     /\ Base64.b64decode encoded_value ≫= Utf8.decode
        = Some (rstrip (lit "us  "))
     /\ (Base64.b64decode encoded_value ≫= Utf8.decode = Some (lit "us  ")
         <-> rstrip (lit "us  ") = lit "us  "))
  /\ (forall v : str,
        Utf8.valid_str v ->
        Base64.b64decode (encode_secret v) ≫= Utf8.decode = Some v).
Proof.
  apply (last_line_value_round_trip (lit "AWS_REGION=eu" ++ [10]) []
           (lit "AWS_REGION") (lit "us  ") [10]).
  - vm_compute. auto 10.
  - reflexivity.
  - apply lf_free_forallb. reflexivity.
  - left. reflexivity.
  - rewrite List.Exists_exists. intros (line & [] & _).
  - reflexivity.
Defined.

(** A last line without a line feed is read in the same way. *)
Example open_last_line_value :
  let text := lit "FOO=1" ++ [10] ++ lit "ES_USER=me " in
  parse_env text !! lit "ES_USER" = Some (lit "me")
  /\ env_file (run (Some text))
     = Some (text ++ lit "ES_USER_B64='bWU='" ++ [10]).
Proof. vm_compute. auto. Qed.

(** *** Two runs on a file that ends with a line feed *)

Lemma startswith_prefix (p t : str) : startswith p (p ++ t) = true.
Proof.
  induction p as [| a p IH]; [reflexivity |].
  cbn [app startswith]. rewrite N.eqb_refl. exact IH.
Qed.

(** The line written for a target key starts with [KEY_B64=]. *)
Lemma b64_line_starts (name e : str) :
  startswith (name ++ lit "_B64=") (b64_line name e) = true.
Proof.
  unfold b64_line, b64_entry.
  change (lit "_B64='") with (lit "_B64=" ++ [39]).
  rewrite <- !app_assoc. rewrite (app_assoc name). apply startswith_prefix.
Qed.

Lemma filter_none {A : Type} (p : A -> bool) (l : list A) :
  (forall x, In x l -> p x = false) -> List.filter p l = [].
Proof.
  induction l as [| a l IH]; intros H; [reflexivity |].
  cbn [List.filter]. rewrite (H a) by (left; reflexivity).
  apply IH. intros x Hx. apply H. right. exact Hx.
Qed.

(** Among the images of a list without duplicates, the one element that
    satisfies a test met by the image of [x] only is counted once. *)
Lemma count_unique {A B : Type} (f : A -> B) (p : B -> bool) (x : A)
    (l : list A) :
  List.NoDup l -> In x l -> p (f x) = true ->
  (forall y, In y l -> p (f y) = true -> y = x) ->
  length (List.filter p (map f l)) = 1%nat.
Proof.
  induction 1 as [| a l Ha Hl IH]; intros Hx Hpx Huniq; [destruct Hx |].
  cbn [map List.filter]. destruct Hx as [-> | Hx].
  - rewrite Hpx. cbn [length]. f_equal.
    rewrite filter_none; [reflexivity |].
    intros b Hb. apply in_map_iff in Hb as (y & <- & Hy).
    destruct (p (f y)) eqn:E; [| reflexivity].
    exfalso. apply Ha. rewrite <- (Huniq y (or_intror Hy) E). exact Hy.
  - destruct (p (f a)) eqn:E.
    + exfalso. apply Ha. rewrite (Huniq a (or_introl eq_refl) E). exact Hx.
    + apply IH; [exact Hx | exact Hpx |].
      intros y Hy. apply Huniq. right. exact Hy.
Qed.

Lemma present_NoDup (env_vars : gmap str str) : List.NoDup (present env_vars).
Proof. apply List.NoDup_filter, secrets_NoDup. Qed.

(** A run appends exactly one line that starts with [KEY_B64=] for a
    present key. *)
Lemma appended_count_present (env_vars : gmap str str) (name : str) :
  In name (present env_vars) ->
  length (List.filter (startswith (name ++ lit "_B64=")) (appended env_vars))
  = 1%nat.
Proof.
  intros Hin. unfold appended.
  apply (count_unique (fun n => entry_for env_vars n ++ [10])
           (startswith (name ++ lit "_B64=")) name).
  - apply present_NoDup.
  - exact Hin.
  - apply b64_line_starts.
  - intros other Hother Hstart.
    apply present_In in Hother as [Hother _].
    apply present_In in Hin as [Hname _].
    apply (entry_key_unique other name _ Hother Hname Hstart).
Qed.

Lemma readlines_appended (env_vars : gmap str str) (rest : str) :
  readlines (concat (appended env_vars) ++ rest)
  = appended env_vars ++ readlines rest.
Proof.
  unfold appended.
  rewrite <- (map_map (entry_for env_vars) terminated).
  apply readlines_after_lines.
  apply List.Forall_forall. intros e He. apply in_map_iff in He.
  destruct He as (n & <- & Hn). apply entry_for_lf_free.
  apply present_In in Hn. tauto.
Qed.

(** A line [KEY=VALUE] of the file, for a target key, sets the key. *)
Lemma target_line_sets_key (text name value : str) :
  In name secrets_to_encode ->
  In (name ++ [61] ++ value ++ [10]) (readlines text) ->
  Exists (sets_key name) (readlines text).
Proof.
  intros Hname Hline. apply List.Exists_exists.
  exists (name ++ [61] ++ value ++ [10]). split; [exact Hline |].
  unfold sets_key, key_of_line.
  rewrite entry_of_target_line by exact Hname. reflexivity.
Qed.

Lemma present_keys_of_file (text name : str) :
  In name (present (parse_env text))
  <-> In name secrets_to_encode /\ Exists (sets_key name) (readlines text).
Proof.
  rewrite present_In.
  pose proof (has_key_parse_env text name) as H. unfold has_key in H.
  unfold sets_key.
  destruct (parse_env text !! name) as [v |].
  - split; [intros [Hn _] | intros [Hn _]; eauto].
    split; [exact Hn | apply H; reflexivity].
  - split; [intros [_ [v Hv]]; discriminate |].
    intros [_ Hex]. apply H in Hex. discriminate.
Qed.

Lemma file_after_run (text : str) :
  file_after text = text ++ concat (appended (parse_env text)).
Proof.
  unfold file_after, run. rewrite main_existing_file. reflexivity.
Qed.

(** A file without a final line feed: the first run continues the last
    line of the file, so the one present key adds no line to it. *)
Lemma open_file_grows_less : ~ grows_by_present_keys (lit "AWS_REGION=us").
Proof.
  intros [Hfirst _]. vm_compute in Hfirst. discriminate Hfirst.
Qed.

(** C7: on a file that is empty or ends with a line feed, two runs in a
    row append, each, the same lines, one [KEY_B64='...'] line per target
    key that a line of the original file sets, so the file grows by one
    line per such key at each run and the two runs add exactly two lines
    [KEY_B64=...] for each of them. *)
Theorem closed_file_two_runs_append_twice (text : str) :
  List.last text 10 = 10 ->
  let keys := present (parse_env text) in
  let lines :=
    map (fun name => b64_line name
                       (encode_secret (default [] (parse_env text !! name))))
        keys in
  let text1 := file_after text in
  let text2 := file_after text1 in
  (forall name,
      In name keys
      <-> In name secrets_to_encode
          /\ Exists (sets_key name) (readlines text))
  /\ (forall name value,
        In name secrets_to_encode ->
        In (name ++ [61] ++ value ++ [10]) (readlines text) ->
        In name keys)
  /\ env_file (run (Some text)) = Some text1
  /\ env_file (main (run (Some text))) = Some text2
  /\ text1 = text ++ concat lines
  /\ text2 = text ++ concat lines ++ concat lines
  /\ readlines text1 = readlines text ++ lines
  /\ readlines text2 = readlines text ++ lines ++ lines
  /\ grows_by_present_keys text.
Proof.
  intros Hlast keys lines text1 text2.
  assert (Hlines : lines = appended (parse_env text)) by reflexivity.
  assert (H1 : text1 = text ++ concat lines).
  { unfold text1. rewrite Hlines. apply file_after_run. }
  assert (H2 : text2 = text ++ concat lines ++ concat lines).
  { unfold text2. rewrite file_after_run, H1, Hlines.
    rewrite appended_after_run by exact Hlast.
    rewrite <- app_assoc. reflexivity. }
  assert (Hr1 : readlines text1 = readlines text ++ lines).
  { rewrite H1, readlines_app_closed by exact Hlast.
    rewrite <- (app_nil_r (concat lines)), Hlines, readlines_appended.
    cbn [readlines]. rewrite app_nil_r. reflexivity. }
  assert (Hr2 : readlines text2 = readlines text ++ lines ++ lines).
  { rewrite H2, readlines_app_closed by exact Hlast.
    rewrite Hlines, readlines_appended.
    rewrite <- (app_nil_r (concat (appended (parse_env text)))).
    rewrite readlines_appended. cbn [readlines].
    rewrite app_nil_r. reflexivity. }
  assert (Hlen : length lines = length keys) by apply length_map.
  split; [intros name; apply present_keys_of_file |].
  split.
  { intros name value Hname Hline. apply present_keys_of_file.
    split; [exact Hname |].
    apply (target_line_sets_key text name value Hname Hline). }
  split.
  { unfold run. rewrite main_existing_file, H1, Hlines. reflexivity. }
  split.
  { rewrite (main_file (run (Some text)) text1).
    - unfold text2. rewrite file_after_run. reflexivity.
    - unfold run. rewrite main_existing_file, H1, Hlines. reflexivity. }
  split; [exact H1 |]. split; [exact H2 |].
  split; [exact Hr1 |]. split; [exact Hr2 |].
  unfold grows_by_present_keys. fold keys text1 text2.
  unfold line_count, b64_lines_of. rewrite Hr1, Hr2.
  split; [| split].
  - rewrite length_app, Hlen. reflexivity.
  - rewrite !length_app, Hlen. lia.
  - intros name Hname. rewrite !List.filter_app, !length_app.
    rewrite Hlines, appended_count_present by exact Hname. lia.
Qed.

Lemma closed_file_two_runs_append_twice_witness :
  let text := lit "AWS_REGION=us" ++ [10] ++ lit "FOO=1" ++ [10] in
  let keys := present (parse_env text) in
  let lines :=
    map (fun name => b64_line name
                       (encode_secret (default [] (parse_env text !! name))))
        keys in
  let text1 := file_after text in
  let text2 := file_after text1 in
  (forall name,
      In name keys
      <-> In name secrets_to_encode
          /\ Exists (sets_key name) (readlines text))
  /\ (forall name value,
        In name secrets_to_encode ->
        In (name ++ [61] ++ value ++ [10]) (readlines text) ->
        In name keys)
  /\ env_file (run (Some text)) = Some text1
  /\ env_file (main (run (Some text))) = Some text2
  /\ text1 = text ++ concat lines
  /\ text2 = text ++ concat lines ++ concat lines
  /\ readlines text1 = readlines text ++ lines
  /\ readlines text2 = readlines text ++ lines ++ lines
  /\ grows_by_present_keys text.
Proof.
  apply (closed_file_two_runs_append_twice
           (lit "AWS_REGION=us" ++ [10] ++ lit "FOO=1" ++ [10])).
  reflexivity.
Defined.

(** The file of the witness, run twice: the line of the one target key it
    sets is there twice, and the line count goes from 2 to 3 to 4. *)
Example closed_file_counts :
  let text := lit "AWS_REGION=us" ++ [10] ++ lit "FOO=1" ++ [10] in
  present (parse_env text) = [lit "AWS_REGION"]
  /\ map line_count [text; file_after text; file_after (file_after text)]
     = [2; 3; 4]%nat
  /\ b64_lines_of (lit "AWS_REGION") (file_after (file_after text)) = 2%nat.
Proof. vm_compute. auto. Qed.

(** Without a final line feed the first run adds no line, and after two
    runs one line starts with [AWS_REGION_B64=]. *)
Example open_file_counts :
  let text := lit "AWS_REGION=us" in
  present (parse_env text) = [lit "AWS_REGION"]
  /\ map line_count [text; file_after text; file_after (file_after text)]
     = [1; 1; 2]%nat
  /\ b64_lines_of (lit "AWS_REGION") (file_after (file_after text)) = 1%nat.
Proof. vm_compute. auto. Qed.

End EncoderFacts.

(** * Properties of scripts/create-test-data.py *)

Module UploaderFacts.
Import Py Uploader.
Local Open Scope Q_scope.

(** *** Clamping *)

Lemma py_max_lower (a b : Q) : a <= py_max a b.
Proof.
  unfold py_max. destruct (Qle_bool b a) eqn:E.
  - apply Qle_refl.
  - apply Qlt_le_weak, Qnot_le_lt. intros H.
    apply Qle_bool_iff in H. congruence.
Qed.

Lemma py_min_upper (a b : Q) : py_min a b <= a.
Proof.
  unfold py_min. destruct (Qle_bool a b) eqn:E.
  - apply Qle_refl.
  - apply Qlt_le_weak, Qnot_le_lt. intros H.
    apply Qle_bool_iff in H. congruence.
Qed.

Lemma py_max_cases (a b : Q) : py_max a b = a \/ py_max a b = b.
Proof. unfold py_max. destruct (Qle_bool b a); auto. Qed.

Lemma py_min_cases (a b : Q) : py_min a b = a \/ py_min a b = b.
Proof. unfold py_min. destruct (Qle_bool a b); auto. Qed.

Lemma py_max_upper (a b c : Q) : a <= c -> b <= c -> py_max a b <= c.
Proof. intros Ha Hb. destruct (py_max_cases a b) as [-> | ->]; assumption. Qed.

(** *** Rounding *)

Lemma round_half_even_hundredths (n : Z) :
  round_half_even ((n # 100) * 100) = n.
Proof.
  unfold round_half_even.
  assert (Hf : Qfloor ((n # 100) * 100) = n).
  { unfold Qfloor, Qmult. simpl. apply Z.div_mul. discriminate. }
  rewrite Hf.
  assert (Hlt : (n # 100) * 100 - inject_Z n < 1 # 2).
  { unfold Qlt, Qminus, Qplus, Qmult, Qopp, inject_Z. simpl. lia. }
  rewrite (proj1 (Qlt_alt _ _) Hlt). reflexivity.
Qed.

Lemma round2_two_decimals (x : Q) : two_decimals (round2 x) = true.
Proof.
  unfold two_decimals. apply Qeq_bool_iff.
  unfold round2. rewrite round_half_even_hundredths. reflexivity.
Qed.


(** *** The generator *)

Section GeneratorFacts.

Context {Rng : Type} (random : Rng -> Q * Rng).

(** The three rows of a device, with the values before clamping. *)
Lemma device_rows_shape (ts : Z) (g : Rng) (dev : Z) :
  exists (t h : Q) (name loc zn : str) (g' : Rng),
    device_rows random ts g dev =
      ([ Reading ts name Temperature (py_max 0 t) loc zn;
         Reading ts name Humidity (py_max 0 (py_min 100 h)) loc zn;
         Reading ts name Pressure
           (round2 (fst (uniform random 1010 1020 (before_pressure random g))))
           loc zn ], g')
    /\ (is_daytime ts = false ->
        t = round2 (fst (uniform random 20 30 g))
        /\ h = round2 (fst (uniform random 40 60
                              (snd (uniform random 20 30 g))))).
Proof.
  unfold device_rows, before_pressure.
  destruct (uniform random 20 30 g) as [x1 g1]; simpl.
  destruct (uniform random 40 60 g1) as [x2 g2]; simpl.
  destruct (uniform random 1010 1020 g2) as [x3 g3]; simpl.
  destruct (device_zone dev) as [loc zn].
  destruct (is_daytime ts).
  - destruct (uniform random 2 5 g3) as [x4 g4].
    destruct (uniform random 5 15 g4) as [x5 g5].
    eexists _, _, _, _, _, _. split; [reflexivity | discriminate].
  - eexists _, _, _, _, _, _. split; [reflexivity | auto].
Qed.

Lemma extend_fst (rows : Rng -> list reading * Rng) (acc : list reading * Rng) :
  fst (extend rows acc) = fst acc ++ fst (rows (snd acc)).
Proof.
  destruct acc as [data g]. unfold extend. simpl.
  destruct (rows g) as [new g']. reflexivity.
Qed.

Lemma device_rows_length (ts : Z) (g : Rng) (dev : Z) :
  length (fst (device_rows random ts g dev)) = 3%nat.
Proof.
  destruct (device_rows_shape ts g dev)
    as (t & h & name & loc & zn & g' & -> & _).
  reflexivity.
Qed.

Lemma devices_loop_length (ts : Z) (devs : list Z) (acc : list reading * Rng) :
  length (fst (devices_loop random ts devs acc))
  = (length (fst acc) + length devs * 3)%nat.
Proof.
  revert acc. induction devs as [| dev devs IH]; intros acc; simpl.
  - lia.
  - unfold devices_loop in *. simpl. rewrite IH, extend_fst.
    rewrite length_app, device_rows_length. lia.
Qed.

Lemma instants_loop_length (tss devs : list Z) (acc : list reading * Rng) :
  length (fst (instants_loop random tss devs acc))
  = (length (fst acc) + length tss * (length devs * 3))%nat.
Proof.
  revert acc. induction tss as [| ts tss IH]; intros acc; simpl.
  - lia.
  - unfold instants_loop in *. simpl.
    rewrite IH, devices_loop_length. lia.
Qed.

(** A property of every row that [device_rows] makes holds of the whole
    data frame. *)
Lemma devices_loop_Forall (P : reading -> Prop) (ts : Z) (devs : list Z) :
  (forall g dev, Forall P (fst (device_rows random ts g dev))) ->
  forall acc, Forall P (fst acc) -> Forall P (fst (devices_loop random ts devs acc)).
Proof.
  intros Hrows. induction devs as [| dev devs IH]; intros acc Hacc; simpl.
  - exact Hacc.
  - unfold devices_loop in *. simpl. apply IH.
    rewrite extend_fst. apply Forall_app. split; [exact Hacc | apply Hrows].
Qed.

Lemma instants_loop_Forall (P : reading -> Prop) (tss devs : list Z) :
  (forall ts g dev, Forall P (fst (device_rows random ts g dev))) ->
  forall acc, Forall P (fst acc) ->
  Forall P (fst (instants_loop random tss devs acc)).
Proof.
  intros Hrows. induction tss as [| ts tss IH]; intros acc Hacc; simpl.
  - exact Hacc.
  - unfold instants_loop in *. simpl. apply IH.
    apply devices_loop_Forall; auto.
Qed.

Lemma generate_sample_data_Forall (P : reading -> Prop) :
  (forall ts g dev, Forall P (fst (device_rows random ts g dev))) ->
  forall start_date end_date num_devices g,
    Forall P (fst (generate_sample_data random start_date end_date
                                         num_devices g)).
Proof.
  intros Hrows start_date end_date num_devices g.
  unfold generate_sample_data.
  apply instants_loop_Forall; [exact Hrows | constructor].
Qed.

End GeneratorFacts.

(** *** The instants of [date_range] *)

Lemma date_range_length (start_date end_date : Z) :
  (start_date <= end_date)%Z ->
  length (date_range start_date end_date)
  = S (Z.to_nat ((end_date - start_date) / us_per_minute)).
Proof.
  intros H. unfold date_range.
  destruct (Z.leb_spec start_date end_date); [| lia].
  rewrite length_map, length_seq. reflexivity.
Qed.

Lemma date_range_elem (start_date end_date t : Z) :
  t ∈ date_range start_date end_date <->
  exists k : Z, (0 <= k)%Z /\ t = (start_date + k * us_per_minute)%Z
                /\ (t <= end_date)%Z.
Proof.
  unfold date_range, us_per_minute. split.
  - destruct (Z.leb_spec start_date end_date) as [Hle | Hlt].
    + intros Hin. apply list_elem_of_In, in_map_iff in Hin.
      destruct Hin as (k & <- & Hk). apply in_seq in Hk.
      exists (Z.of_nat k). split; [lia |]. split; [reflexivity |].
      pose proof (Z.div_pos (end_date - start_date) 60000000
                    ltac:(lia) ltac:(lia)).
      assert (Z.of_nat k <= (end_date - start_date) / 60000000)%Z by lia.
      pose proof (Z.mul_div_le (end_date - start_date) 60000000 eq_refl).
      nia.
    + intros Hin. inversion Hin.
  - intros (k & Hk & -> & Hle).
    destruct (Z.leb_spec start_date end_date) as [Hle' | Hlt]; [| lia].
    apply list_elem_of_In, in_map_iff. exists (Z.to_nat k).
    split; [lia |]. apply in_seq.
    assert (k <= (end_date - start_date) / 60000000)%Z.
    { apply Z.div_le_lower_bound; lia. }
    lia.
Qed.

Lemma device_range_length (num_devices : Z) :
  length (device_range num_devices) = Z.to_nat num_devices.
Proof. unfold device_range. rewrite length_map, length_seq. reflexivity. Qed.


(** *** Row count *)

Lemma generate_sample_data_length {Rng : Type} (random : Rng -> Q * Rng)
    (start_date end_date num_devices : Z) (g : Rng) :
  (start_date <= end_date)%Z ->
  length (fst (generate_sample_data random start_date end_date num_devices g))
  = (S (Z.to_nat ((end_date - start_date) / us_per_minute))
     * Z.to_nat num_devices * 3)%nat.
Proof.
  intros Hle. unfold generate_sample_data.
  rewrite instants_loop_length, date_range_length, device_range_length
    by exact Hle.
  simpl length. lia.
Qed.

Lemma generate_sample_data_rows {Rng : Type} (random : Rng -> Q * Rng)
    (start_date end_date num_devices : Z) (g : Rng) :
  (start_date <= end_date)%Z ->
  (0 <= num_devices)%Z ->
  rows_of (fst (generate_sample_data random start_date end_date num_devices g))
  = (((end_date - start_date) / us_per_minute + 1) * num_devices * 3)%Z.
Proof.
  intros Hle Hn. unfold rows_of.
  rewrite generate_sample_data_length by exact Hle.
  assert (0 <= (end_date - start_date) / us_per_minute)%Z
    by (apply Z.div_pos; [lia | reflexivity]).
  lia.
Qed.

(** C4: for [start <= end] and a positive number of devices, the data
    frame has (number of whole minutes from [start] to [end], plus one)
    x [num_devices] x 3 rows, whatever the random draws; from
    2024-01-01T00:00 to 2024-01-01T00:02 with one device that is 9 rows. *)
Theorem generate_sample_data_row_count {Rng : Type}
    (random : Rng -> Q * Rng) (start_date end_date num_devices : Z) (g : Rng) :
  (start_date <= end_date)%Z ->
  (0 < num_devices)%Z ->
  length (fst (generate_sample_data random start_date end_date num_devices g))
  = (S (Z.to_nat ((end_date - start_date) / us_per_minute))
     * Z.to_nat num_devices * 3)%nat
  /\ length (fst (generate_sample_data random t_2024_01_01
                    (t_2024_01_01 + 2 * us_per_minute) 1 g)) = 9%nat.
Proof.
  intros Hle Hpos. split.
  - apply generate_sample_data_length, Hle.
  - rewrite generate_sample_data_length by (vm_compute; discriminate).
    reflexivity.
Qed.

Lemma generate_sample_data_row_count_witness :
  length (fst (generate_sample_data tape_random noon
                 (noon + 5 * us_per_minute) 2 [1 # 2; 1 # 4]))
  = (S (Z.to_nat ((noon + 5 * us_per_minute - noon) / us_per_minute))
     * Z.to_nat 2 * 3)%nat
  /\ length (fst (generate_sample_data tape_random t_2024_01_01
                    (t_2024_01_01 + 2 * us_per_minute) 1 [1 # 2; 1 # 4]))
     = 9%nat.
Proof.
  apply (generate_sample_data_row_count tape_random noon
           (noon + 5 * us_per_minute) 2 [1 # 2; 1 # 4]).
  - vm_compute. discriminate.
  - reflexivity.
Defined.

(** *** Clamped values *)

Lemma device_rows_within_bounds {Rng : Type} (random : Rng -> Q * Rng)
    (ts : Z) (g : Rng) (dev : Z) :
  Forall within_bounds (fst (device_rows random ts g dev)).
Proof.
  destruct (device_rows_shape random ts g dev)
    as (t & h & name & loc & zn & g' & -> & _).
  repeat constructor; unfold within_bounds; simpl.
  - apply py_max_lower.
  - apply py_max_lower.
  - apply py_max_upper; [discriminate | apply py_min_upper].
Qed.

(** C5: in every data frame, whatever the range, the device count and the
    random draws, a humidity lies in [0, 100] and a temperature is at least
    0; the pressure row of a device holds the rounded draw as it is,
    without any clamp. *)
Theorem generated_values_clamped {Rng : Type} (random : Rng -> Q * Rng) :
  (forall start_date end_date num_devices g,
     Forall within_bounds
       (fst (generate_sample_data random start_date end_date num_devices g)))
  /\ (forall ts g dev,
        map metric_value
            (List.filter (has_metric Pressure)
                         (fst (device_rows random ts g dev)))
        = [round2 (fst (uniform random 1010 1020 (before_pressure random g)))]).
Proof.
  split.
  - apply generate_sample_data_Forall, device_rows_within_bounds.
  - intros ts g dev.
    destruct (device_rows_shape random ts g dev)
      as (t & h & name & loc & zn & g' & -> & _).
    reflexivity.
Qed.

(** Nothing keeps a pressure in a range: a generator that is not confined
    to [0, 1) gives a negative one. *)
Example pressure_below_zero :
  map value_view
      (fst (generate_sample_data tape_random 0 0 1 [0; 0; -200]))
  = [ (Temperature, 20, true); (Humidity, 40, true);
      (Pressure, -990, true) ].
Proof. vm_compute. reflexivity. Qed.

(** *** Two decimals *)

(** C2 at a failing input: at noon, with draws 0.5, 0.5, 0.5 for the base
    values and 1/512 for the temperature adjustment, the temperature row
    holds 25.0 + 2.005859375 = 27.005859375, which [round(v, 2)] changes;
    the adjustment is added after the rounding. *)
Theorem daytime_temperature_not_rounded :
  map value_view
      (fst (generate_sample_data tape_random noon noon 1
              [1 # 2; 1 # 2; 1 # 2; 1 # 512; 1 # 2]))
  = [ (Temperature, 13827 # 512, false); (Humidity, 40, true);
      (Pressure, 1015, true) ].
Proof. vm_compute. reflexivity. Qed.

Lemma clamp_two_decimals (x : Q) :
  is_two_decimals (py_max 0 (round2 x))
  /\ is_two_decimals (py_max 0 (py_min 100 (round2 x))).
Proof.
  unfold is_two_decimals. split.
  - destruct (py_max_cases 0 (round2 x)) as [-> | ->];
      [reflexivity | apply round2_two_decimals].
  - destruct (py_max_cases 0 (py_min 100 (round2 x))) as [-> | ->];
      [reflexivity |].
    destruct (py_min_cases 100 (round2 x)) as [-> | ->];
      [reflexivity | apply round2_two_decimals].
Qed.

(** What does hold: outside the hours 6 to 18 every value has two
    decimals, and a pressure has two decimals at any hour. *)
Lemma night_values_two_decimals {Rng : Type} (random : Rng -> Q * Rng)
    (start_date end_date num_devices : Z) (g : Rng) :
  Forall (fun r => (is_daytime (timestamp r) = false
                    \/ metric_name r = Pressure)
                   -> is_two_decimals (metric_value r))
    (fst (generate_sample_data random start_date end_date num_devices g)).
Proof.
  apply generate_sample_data_Forall. clear. intros ts g dev.
  destruct (device_rows_shape random ts g dev)
    as (t & h & name & loc & zn & g' & -> & Hnight).
  repeat constructor; simpl.
  - intros [Hn | ?]; [| discriminate].
    destruct (Hnight Hn) as [-> _]. apply clamp_two_decimals.
  - intros [Hn | ?]; [| discriminate].
    destruct (Hnight Hn) as [_ ->]. apply clamp_two_decimals.
  - intros _. apply round2_two_decimals.
Qed.

(** *** Uploads *)

Section UploadFacts.

Context {Rng : Type} (random : Rng -> Q * Rng).
Context {Body : Type} (to_csv : list reading -> Body).
Context {Store Exn : Type}.
Context (put_object : put_request Body -> Store -> option Exn * Store).

Lemma upload_to_s3_outcome (df : list reading) (c : config) (k : str)
    (s : Store) :
  upload_to_s3 to_csv put_object df (cfg_bucket c) k (cfg_access_key c)
               (cfg_secret_key c) (cfg_region c) s
  = (returned (put_object (request_for c k (to_csv df)) s),
     snd (put_object (request_for c k (to_csv df)) s)).
Proof.
  unfold upload_to_s3, request_for, returned.
  destruct (put_object _ s) as [[e |] s']; reflexivity.
Qed.

(** One turn of the loop of [main] sends exactly one request, for the
    key of the file, and goes on with the store that the call left. *)
Lemma upload_one_attempt (c : config) (end_date : Z) (df : list reading)
    (g : Rng) (s : Store) (f : test_file) :
  exists (df' : list reading) (g' : Rng),
    upload_one random to_csv put_object c end_date df (g, s) f
    = (returned (put_object (request_for c (key f) (to_csv df')) s),
       (g', snd (put_object (request_for c (key f) (to_csv df')) s))).
Proof.
  unfold upload_one.
  destruct (contains (lit "daily") (key f)).
  - destruct (generate_sample_data random _ end_date 3 g) as [df' g'].
    exists df', g'. rewrite upload_to_s3_outcome. reflexivity.
  - destruct (contains (lit "hourly") (key f)).
    + destruct (generate_sample_data random _ end_date 2 g) as [df' g'].
      exists df', g'. rewrite upload_to_s3_outcome. reflexivity.
    + exists df, g. rewrite upload_to_s3_outcome. reflexivity.
Qed.

(** C6: [upload_to_s3] returns [False] exactly when [put_object] raised and
    [True] when it returned, for any behaviour of the store; and [main]
    sends its three requests one after the other, each to the store as the
    previous call left it, whether or not that call raised. *)
Theorem upload_failures_are_contained :
  (forall df c k s,
     upload_to_s3 to_csv put_object df (cfg_bucket c) k (cfg_access_key c)
                  (cfg_secret_key c) (cfg_region c) s
     = (returned (put_object (request_for c k (to_csv df)) s),
        snd (put_object (request_for c k (to_csv df)) s)))
  /\ (forall getenv now g s,
        let c := read_config getenv in
        exists df1 df2 df3 : list reading,
          let s1 := snd (put_object
                           (request_for c (cfg_prefix c ++ sample_name)
                                        (to_csv df1)) s) in
          let s2 := snd (put_object
                           (request_for c (cfg_prefix c ++ daily_name)
                                        (to_csv df2)) s1) in
          let s3 := snd (put_object
                           (request_for c (cfg_prefix c ++ hourly_name)
                                        (to_csv df3)) s2) in
          snd (main random to_csv put_object getenv now (g, s)) = s3).
Proof.
  split; [apply upload_to_s3_outcome |].
  intros getenv now g s c. unfold main. fold c.
  destruct (generate_sample_data random _ now 5 g) as [df g0].
  unfold test_files. cbn [foldl].
  destruct (upload_one_attempt c now df g0 s
              (TestFile (cfg_prefix c ++ lit "sample-metrics.csv")
                        (lit "Full dataset for testing")))
    as (df1 & g1 & ->).
  cbn [snd key].
  match goal with |- context [upload_one _ _ _ _ _ _ (g1, ?s1) ?f] =>
    destruct (upload_one_attempt c now df g1 s1 f) as (df2 & g2 & ->) end.
  cbn [snd key].
  match goal with |- context [upload_one _ _ _ _ _ _ (g2, ?s2) ?f] =>
    destruct (upload_one_attempt c now df g2 s2 f) as (df3 & g3 & ->) end.
  cbn [snd key].
  exists df1, df2, df3. reflexivity.
Qed.

End UploadFacts.

(** *** The keys and the datasets *)

Lemma startswith_app (p s t : str) :
  startswith p s = true -> startswith p (s ++ t) = true.
Proof.
  revert s. induction p as [| a p IH]; intros [| b s]; simpl; auto.
  - discriminate.
  - intros H. apply andb_true_iff in H as [-> H]. simpl. auto.
Qed.

Lemma contains_app_r (p s t : str) :
  contains p t = true -> contains p (s ++ t) = true.
Proof.
  intros H. induction s as [| c s IH]; simpl; [exact H |].
  rewrite IH. apply orb_true_r.
Qed.

Section Requests.

Context {Rng : Type} (random : Rng -> Q * Rng).
Context (fails : put_request (list reading) -> bool).

(** The three requests of a run, by the branch that each key takes. *)
Lemma requests_of_main_unfold (getenv : str -> option str) (now : Z) (g : Rng) :
  let c := read_config getenv in
  let full := generate_sample_data random (now - timedelta 7 0) now 5 g in
  let upload st f :=
    snd (upload_one random (fun df => df) (recording_put fails)
                    c now (fst full) st f) in
  requests_of_main random fails getenv now g
  = snd (foldl upload (snd full, []) (test_files (cfg_prefix c))).
Proof.
  intros c full upload. unfold requests_of_main, main. fold c.
  subst full upload.
  destruct (generate_sample_data random _ now 5 g) as [df g0]. reflexivity.
Qed.

(** Whatever requests fail, a run sends one request for each of the
    three keys, in order. *)
Lemma main_attempts_every_key (getenv : str -> option str) (now : Z) (g : Rng) :
  let p := cfg_prefix (read_config getenv) in
  map Key (requests_of_main random fails getenv now g)
  = [p ++ sample_name; p ++ daily_name; p ++ hourly_name].
Proof.
  intros p. rewrite requests_of_main_unfold. fold p.
  unfold test_files. cbn [foldl].
  repeat match goal with
         | |- context [upload_one ?r ?t ?pt ?c ?e ?df (?g0, ?s0) ?f] =>
             let df' := fresh "df" in
             let g' := fresh "g" in
             destruct (upload_one_attempt r t pt c e df g0 s0 f)
               as (df' & g' & ->);
             cbn [snd fst key recording_put]
         end.
  reflexivity.
Qed.

Lemma upload_one_daily (c : config) (now : Z) (df : list reading) (g : Rng)
    (s : list (put_request (list reading))) (f : test_file) :
  contains (lit "daily") (key f) = true ->
  let daily := generate_sample_data random (now - timedelta 1 0) now 3 g in
  snd (upload_one random (fun df => df) (recording_put fails) c now df (g, s) f)
  = (snd daily, s ++ [request_for c (key f) (fst daily)]).
Proof.
  intros H daily. unfold upload_one. rewrite H. subst daily.
  destruct (generate_sample_data random _ now 3 g) as [df' g'].
  unfold upload_to_s3, recording_put, request_for.
  destruct (fails _); reflexivity.
Qed.

Lemma upload_one_hourly (c : config) (now : Z) (df : list reading) (g : Rng)
    (s : list (put_request (list reading))) (f : test_file) :
  contains (lit "daily") (key f) = false ->
  contains (lit "hourly") (key f) = true ->
  let hourly := generate_sample_data random (now - timedelta 0 1) now 2 g in
  snd (upload_one random (fun df => df) (recording_put fails) c now df (g, s) f)
  = (snd hourly, s ++ [request_for c (key f) (fst hourly)]).
Proof.
  intros H1 H2 hourly. unfold upload_one. rewrite H1, H2. subst hourly.
  destruct (generate_sample_data random _ now 2 g) as [df' g'].
  unfold upload_to_s3, recording_put, request_for.
  destruct (fails _); reflexivity.
Qed.

Lemma upload_one_full (c : config) (now : Z) (df : list reading) (g : Rng)
    (s : list (put_request (list reading))) (f : test_file) :
  contains (lit "daily") (key f) = false ->
  contains (lit "hourly") (key f) = false ->
  snd (upload_one random (fun df => df) (recording_put fails) c now df (g, s) f)
  = (g, s ++ [request_for c (key f) df]).
Proof.
  intros H1 H2. unfold upload_one. rewrite H1, H2.
  unfold upload_to_s3, recording_put, request_for.
  destruct (fails _); reflexivity.
Qed.

(** When the key of the first file has neither [daily] nor [hourly] in it
    and the key of the third has no [daily], the three datasets go to the
    three keys as intended. *)
Lemma requests_of_main_intended (getenv : str -> option str) (now : Z) (g : Rng) :
  let c := read_config getenv in
  let p := cfg_prefix c in
  contains (lit "daily") (p ++ sample_name) = false ->
  contains (lit "hourly") (p ++ sample_name) = false ->
  contains (lit "daily") (p ++ hourly_name) = false ->
  let full := generate_sample_data random (now - timedelta 7 0) now 5 g in
  let daily :=
    generate_sample_data random (now - timedelta 1 0) now 3 (snd full) in
  let hourly :=
    generate_sample_data random (now - timedelta 0 1) now 2 (snd daily) in
  requests_of_main random fails getenv now g
  = [ request_for c (p ++ sample_name) (fst full);
      request_for c (p ++ daily_name) (fst daily);
      request_for c (p ++ hourly_name) (fst hourly) ].
Proof.
  intros c p H1 H2 H3 full daily hourly.
  rewrite requests_of_main_unfold. fold c p full.
  unfold test_files. cbn [foldl].
  rewrite upload_one_full by assumption.
  rewrite upload_one_daily
    by (apply contains_app_r; vm_compute; reflexivity).
  fold daily.
  rewrite upload_one_hourly
    by (first [assumption | apply contains_app_r; vm_compute; reflexivity]).
  reflexivity.
Qed.

Lemma read_config_daily :
  read_config (env_with_prefix (lit "daily/"))
  = Config None None (lit "us-east-1") None (lit "daily/").
Proof. vm_compute. reflexivity. Qed.

(** C1 at a failing input: with [S3_PREFIX=daily/] the key of every file
    contains [daily], so each of the three requests, the first one under
    [daily/sample-metrics.csv] included, carries a 1-day, 3-device dataset
    of 12969 rows; the full dataset of 151215 rows is not uploaded. *)
Theorem daily_prefix_uploads_daily_data (now : Z) (g : Rng) :
  let full := generate_sample_data random (now - timedelta 7 0) now 5 g in
  let daily :=
    generate_sample_data random (now - timedelta 1 0) now 3 (snd full) in
  let sent := requests_of_main random fails (env_with_prefix (lit "daily/"))
                               now g in
  map request_view sent
  = [ (lit "daily/sample-metrics.csv", 12969%Z);
      (lit "daily/daily-metrics-2024-01-15.csv", 12969%Z);
      (lit "daily/hourly-metrics-2024-01-15.csv", 12969%Z) ]
  /\ head sent = Some (request_for (read_config (env_with_prefix (lit "daily/")))
                                   (lit "daily/sample-metrics.csv") (fst daily))
  /\ rows_of (fst full) = 151215%Z
  /\ fst daily <> fst full.
Proof.
  intros full daily sent.
  assert (Hfull : rows_of (fst full) = 151215%Z).
  { subst full. rewrite generate_sample_data_rows
      by (unfold timedelta, us_per_day, us_per_hour; lia).
    replace (now - (now - timedelta 7 0))%Z with (timedelta 7 0) by lia.
    vm_compute. reflexivity. }
  assert (Hday : forall g', rows_of (fst (generate_sample_data random
                              (now - timedelta 1 0) now 3 g')) = 12969%Z).
  { intros g'. rewrite generate_sample_data_rows
      by (unfold timedelta, us_per_day, us_per_hour; lia).
    replace (now - (now - timedelta 1 0))%Z with (timedelta 1 0) by lia.
    vm_compute. reflexivity. }
  assert (Hsent : exists g1 g2,
            sent = [ request_for (read_config (env_with_prefix (lit "daily/")))
                       (lit "daily/" ++ sample_name) (fst daily);
                     request_for (read_config (env_with_prefix (lit "daily/")))
                       (lit "daily/" ++ daily_name)
                       (fst (generate_sample_data random
                               (now - timedelta 1 0) now 3 g1));
                     request_for (read_config (env_with_prefix (lit "daily/")))
                       (lit "daily/" ++ hourly_name)
                       (fst (generate_sample_data random
                               (now - timedelta 1 0) now 3 g2)) ]).
  { subst sent. rewrite requests_of_main_unfold. fold full.
    rewrite read_config_daily. cbn [cfg_prefix]. unfold test_files.
    cbn [foldl].
    rewrite upload_one_daily by (vm_compute; reflexivity). fold daily.
    rewrite upload_one_daily by (vm_compute; reflexivity).
    rewrite upload_one_daily by (vm_compute; reflexivity).
    eexists _, _. reflexivity. }
  destruct Hsent as (g1 & g2 & Hsent). rewrite Hsent.
  split; [| split; [| split]].
  - unfold request_view. cbn [map Key Body_ request_for].
    subst daily. rewrite !Hday. reflexivity.
  - reflexivity.
  - exact Hfull.
  - intros Heq. pose proof (Hday (snd full)) as Hd. fold daily in Hd.
    rewrite Heq, Hfull in Hd. discriminate.
Qed.

End Requests.

(** The default prefix [data/] takes the intended branches. *)
Example default_prefix_keys :
  let p := cfg_prefix (read_config (fun _ => None)) in
  p = lit "data/"
  /\ contains (lit "daily") (p ++ sample_name) = false
  /\ contains (lit "hourly") (p ++ sample_name) = false
  /\ contains (lit "daily") (p ++ hourly_name) = false.
Proof. vm_compute. auto. Qed.

(** *** Empty frames *)

Lemma instants_loop_no_devices {Rng : Type} (random : Rng -> Q * Rng)
    (tss : list Z) (acc : list reading * Rng) :
  instants_loop random tss [] acc = acc.
Proof. induction tss as [| ts tss IH]; [reflexivity | exact IH]. Qed.

(** X8: when [end] is before [start], or the number of devices is zero
    or negative, the frame is empty and no random number is drawn. *)
Theorem empty_range_gives_empty_frame {Rng : Type} (random : Rng -> Q * Rng)
    (start_date end_date num_devices : Z) (g : Rng) :
  (end_date < start_date)%Z \/ (num_devices <= 0)%Z ->
  generate_sample_data random start_date end_date num_devices g = ([], g).
Proof.
  intros [H | H]; unfold generate_sample_data.
  - unfold date_range. destruct (Z.leb_spec start_date end_date); [lia |].
    reflexivity.
  - unfold device_range. replace (Z.to_nat num_devices) with 0%nat by lia.
    apply instants_loop_no_devices.
Qed.

Lemma empty_range_gives_empty_frame_witness :
  generate_sample_data tape_random noon t_2024_01_01 5 [1 # 2]
  = ([], [1 # 2]).
Proof.
  apply (empty_range_gives_empty_frame tape_random noon t_2024_01_01 5
           [1 # 2]).
  left. reflexivity.
Defined.

(** *** The columns that do not depend on the draws *)

Section Columns.

Context {Rng : Type} (random : Rng -> Q * Rng).

Lemma device_rows_columns (ts : Z) (g : Rng) (dev : Z) :
  map fixed_columns (fst (device_rows random ts g dev))
  = device_columns ts dev.
Proof.
  unfold device_rows, device_columns, device_label.
  destruct (uniform random 20 30 g) as [x1 g1].
  destruct (uniform random 40 60 g1) as [x2 g2].
  destruct (uniform random 1010 1020 g2) as [x3 g3].
  destruct (device_zone dev) as [loc zn].
  destruct (is_daytime ts).
  - destruct (uniform random 2 5 g3) as [x4 g4].
    destruct (uniform random 5 15 g4) as [x5 g5]. reflexivity.
  - reflexivity.
Qed.

Lemma devices_loop_columns (ts : Z) (devs : list Z) (acc : list reading * Rng) :
  map fixed_columns (fst (devices_loop random ts devs acc))
  = map fixed_columns (fst acc) ++ flat_map (device_columns ts) devs.
Proof.
  revert acc. induction devs as [| dev devs IH]; intros acc.
  - cbn [flat_map]. rewrite app_nil_r. reflexivity.
  - unfold devices_loop in *. cbn [foldl flat_map]. rewrite IH, extend_fst.
    rewrite map_app, device_rows_columns, <- app_assoc. reflexivity.
Qed.

Lemma instants_loop_columns (tss devs : list Z) (acc : list reading * Rng) :
  map fixed_columns (fst (instants_loop random tss devs acc))
  = map fixed_columns (fst acc)
    ++ flat_map (fun ts => flat_map (device_columns ts) devs) tss.
Proof.
  revert acc. induction tss as [| ts tss IH]; intros acc.
  - cbn [flat_map]. rewrite app_nil_r. reflexivity.
  - unfold instants_loop in *. cbn [foldl flat_map].
    rewrite IH, devices_loop_columns, <- app_assoc. reflexivity.
Qed.

Lemma generate_sample_data_columns (start_date end_date num_devices : Z)
    (g : Rng) :
  map fixed_columns
      (fst (generate_sample_data random start_date end_date num_devices g))
  = frame_columns start_date end_date num_devices.
Proof. unfold generate_sample_data. apply instants_loop_columns. Qed.

End Columns.

(** X9: the timestamp, device, metric, location and zone columns of a
    frame do not depend on the random draws: instant after instant, and for
    each instant device after device from 1 to [num_devices], there is a
    temperature row, a humidity row and a pressure row, with the label and
    the zone of the device. *)
Theorem fixed_columns_of_frame {Rng : Type} (random : Rng -> Q * Rng)
    (start_date end_date num_devices : Z) (g : Rng) :
  map fixed_columns
      (fst (generate_sample_data random start_date end_date num_devices g))
  = flat_map (fun ts =>
                flat_map (fun dev =>
                            [ (ts, device_label dev, Temperature,
                               fst (device_zone dev), snd (device_zone dev));
                              (ts, device_label dev, Humidity,
                               fst (device_zone dev), snd (device_zone dev));
                              (ts, device_label dev, Pressure,
                               fst (device_zone dev), snd (device_zone dev)) ])
                         (device_range num_devices))
             (date_range start_date end_date).
Proof. apply generate_sample_data_columns. Qed.

(** X10: every row of a frame has an instant between [start] and [end],
    a whole number of minutes after [start]; and when [end] is itself a
    whole number of minutes after [start] and there is a device, the frame
    has rows for the instant [end]. *)
Theorem timestamps_cover_range {Rng : Type} (random : Rng -> Q * Rng)
    (start_date end_date num_devices : Z) (g : Rng) :
  let rows :=
    fst (generate_sample_data random start_date end_date num_devices g) in
  Forall (fun r => (start_date <= timestamp r <= end_date)%Z
                   /\ ((timestamp r - start_date) mod us_per_minute = 0)%Z)
         rows
  /\ ((start_date <= end_date)%Z ->
      ((end_date - start_date) mod us_per_minute = 0)%Z ->
      (0 < num_devices)%Z ->
      exists r, In r rows /\ timestamp r = end_date).
Proof.
  intros rows.
  pose proof (generate_sample_data_columns random start_date end_date
                num_devices g) as Hcols. fold rows in Hcols.
  split.
  - apply List.Forall_forall. intros r Hr.
    assert (Hin : In (fixed_columns r)
                     (frame_columns start_date end_date num_devices)).
    { rewrite <- Hcols. apply in_map, Hr. }
    unfold frame_columns in Hin. apply in_flat_map in Hin as (ts & Hts & Hin).
    apply in_flat_map in Hin as (dev & _ & Hin).
    unfold device_columns in Hin. apply in_map_iff in Hin as (m & Heq & _).
    assert (Hr_ts : timestamp r = ts).
    { unfold fixed_columns in Heq. congruence. }
    apply list_elem_of_In, date_range_elem in Hts
      as (k & Hk & Hts & Hle).
    rewrite Hr_ts, Hts. split; [unfold us_per_minute in *; lia |].
    replace (start_date + k * us_per_minute - start_date)%Z
      with (k * us_per_minute)%Z by lia.
    apply Z.mod_mul. discriminate.
  - intros Hle Hmod Hpos.
    assert (Hend : In end_date (date_range start_date end_date)).
    { apply list_elem_of_In, date_range_elem.
      exists ((end_date - start_date) / us_per_minute)%Z.
      pose proof (Z.div_mod (end_date - start_date) us_per_minute
                    ltac:(discriminate)) as Hdm.
      rewrite Hmod in Hdm.
      split; [apply Z.div_pos; [lia | reflexivity] |].
      split; lia. }
    assert (Hdev : In 1%Z (device_range num_devices)).
    { unfold device_range. apply in_map_iff. exists 0%nat.
      split; [reflexivity | apply in_seq; lia]. }
    assert (Hcol : In (end_date, device_label 1, Temperature,
                       fst (device_zone 1), snd (device_zone 1))
                      (map fixed_columns rows)).
    { rewrite Hcols. unfold frame_columns. apply in_flat_map.
      exists end_date. split; [exact Hend |].
      apply in_flat_map. exists 1%Z. split; [exact Hdev |].
      left. reflexivity. }
    apply in_map_iff in Hcol as (r & Heq & Hr).
    exists r. split; [exact Hr |]. unfold fixed_columns in Heq. congruence.
Qed.

(** *** The random numbers that a frame takes *)

Section Draws.

Context {Rng : Type} (random : Rng -> Q * Rng).

Lemma draws_add (a b : nat) (g : Rng) :
  draws random (a + b) g = draws random b (draws random a g).
Proof.
  unfold draws. rewrite Nat.add_comm. apply Nat.iter_add.
Qed.

Lemma uniform_snd (a b : Q) (g : Rng) :
  snd (uniform random a b g) = draws random 1 g.
Proof. unfold uniform, draws. cbn. destruct (random g). reflexivity. Qed.

Lemma device_rows_draws (ts : Z) (g : Rng) (dev : Z) :
  snd (device_rows random ts g dev)
  = draws random (if is_daytime ts then 5 else 3) g.
Proof.
  unfold device_rows.
  pose proof (uniform_snd 20 30 g) as H1.
  destruct (uniform random 20 30 g) as [x1 g1]. cbn [snd] in H1.
  pose proof (uniform_snd 40 60 g1) as H2.
  destruct (uniform random 40 60 g1) as [x2 g2]. cbn [snd] in H2.
  pose proof (uniform_snd 1010 1020 g2) as H3.
  destruct (uniform random 1010 1020 g2) as [x3 g3]. cbn [snd] in H3.
  destruct (device_zone dev) as [loc zn].
  destruct (is_daytime ts).
  - pose proof (uniform_snd 2 5 g3) as H4.
    destruct (uniform random 2 5 g3) as [x4 g4]. cbn [snd] in H4.
    pose proof (uniform_snd 5 15 g4) as H5.
    destruct (uniform random 5 15 g4) as [x5 g5]. cbn [snd] in H5.
    cbn [snd]. subst. reflexivity.
  - cbn [snd]. subst. reflexivity.
Qed.

Lemma extend_snd (rows : Rng -> list reading * Rng)
    (acc : list reading * Rng) :
  snd (extend rows acc) = snd (rows (snd acc)).
Proof.
  destruct acc as [data g]. unfold extend. cbn [snd].
  destruct (rows g) as [new g']. reflexivity.
Qed.

Lemma devices_loop_draws (ts : Z) (devs : list Z) (acc : list reading * Rng) :
  snd (devices_loop random ts devs acc)
  = draws random (length devs * (if is_daytime ts then 5 else 3))
          (snd acc).
Proof.
  revert acc. induction devs as [| dev devs IH]; intros acc; [reflexivity |].
  unfold devices_loop in *. cbn [foldl length]. rewrite IH, extend_snd.
  rewrite device_rows_draws, <- draws_add. f_equal; lia.
Qed.

Lemma instants_loop_draws (tss devs : list Z) (acc : list reading * Rng) :
  snd (instants_loop random tss devs acc)
  = draws random (length devs
                  * (3 * length tss + 2 * length (List.filter is_daytime tss)))
          (snd acc).
Proof.
  revert acc. induction tss as [| ts tss IH]; intros acc.
  - cbn [foldl length List.filter instants_loop].
    rewrite Nat.mul_0_r. reflexivity.
  - unfold instants_loop in *. cbn [foldl length List.filter].
    rewrite IH, devices_loop_draws, <- draws_add.
    f_equal; destruct (is_daytime ts); cbn [length]; lia.
Qed.

End Draws.

(** X11: generating a frame calls [random()] three times for each device
    at each instant and twice more at each instant whose hour is between 6
    and 18: the source is left in the state that this number of calls
    gives, whatever the numbers drawn. *)
Theorem frame_draws {Rng : Type} (random : Rng -> Q * Rng)
    (start_date end_date num_devices : Z) (g : Rng) :
  snd (generate_sample_data random start_date end_date num_devices g)
  = draws random (draws_needed start_date end_date num_devices) g.
Proof.
  unfold generate_sample_data, draws_needed.
  rewrite instants_loop_draws, device_range_length. reflexivity.
Qed.

(** With a source that counts its calls: a device at noon takes five
    draws, and from 23:59 to 00:01 two devices take eighteen. *)
Example frame_draws_counted :
  snd (generate_sample_data (const_random (1 # 2)) noon noon 1 0%nat) = 5%nat
  /\ snd (generate_sample_data (const_random (1 # 2))
            (t_2024_01_01 - us_per_minute) (t_2024_01_01 + us_per_minute)
            2 0%nat) = 18%nat.
Proof. split; vm_compute; reflexivity. Qed.

(** *** The ranges of the values *)

Lemma round_half_even_bounds (m M : Z) (y : Q) :
  inject_Z m <= y -> y <= inject_Z M ->
  (m <= round_half_even y <= M)%Z.
Proof.
  intros Hm HM. unfold round_half_even.
  assert (Hf1 : (m <= Qfloor y)%Z).
  { rewrite <- (Qfloor_Z m). apply Qfloor_resp_le, Hm. }
  assert (Hf2 : (Qfloor y <= M)%Z).
  { rewrite <- (Qfloor_Z M). apply Qfloor_resp_le, HM. }
  assert (Hup : 0 < y - inject_Z (Qfloor y) -> (Qfloor y + 1 <= M)%Z).
  { intros Hpos.
    assert (Hlt : inject_Z (Qfloor y) < inject_Z M) by lra.
    rewrite <- Zlt_Qlt in Hlt. lia. }
  destruct (Qcompare (y - inject_Z (Qfloor y)) (1 # 2)) eqn:E.
  - apply Qeq_alt in E. destruct (Z.even (Qfloor y)); [lia |].
    split; [lia | apply Hup; lra].
  - lia.
  - apply Qgt_alt in E. split; [lia | apply Hup; lra].
Qed.

Lemma round2_bounds (a b : Z) (x : Q) :
  inject_Z a <= x -> x <= inject_Z b ->
  inject_Z a <= round2 x /\ round2 x <= inject_Z b.
Proof.
  intros Ha Hb.
  destruct (round_half_even_bounds (a * 100) (b * 100) (x * 100)) as [H1 H2].
  - rewrite inject_Z_mult. change (inject_Z 100) with 100. lra.
  - rewrite inject_Z_mult. change (inject_Z 100) with 100. lra.
  - unfold round2, Qle, inject_Z. cbn [Qnum Qden]. lia.
Qed.

Lemma py_max_positive (t : Q) : 0 < t -> py_max 0 t = t.
Proof.
  intros H. unfold py_max. destruct (Qle_bool t 0) eqn:E; [| reflexivity].
  apply Qle_bool_iff in E. lra.
Qed.

Lemma py_min_below (h : Q) : h < 100 -> py_min 100 h = h.
Proof.
  intros H. unfold py_min. destruct (Qle_bool 100 h) eqn:E; [| reflexivity].
  apply Qle_bool_iff in E. lra.
Qed.

Section Ranges.

Context {Rng : Type} (random : Rng -> Q * Rng).
Hypothesis Hunit : unit_interval random.

Lemma uniform_range (a b : Z) (g : Rng) :
  (a <= b)%Z ->
  inject_Z a <= fst (uniform random (inject_Z a) (inject_Z b) g)
  /\ fst (uniform random (inject_Z a) (inject_Z b) g) <= inject_Z b.
Proof.
  intros Hab. unfold uniform. destruct (Hunit g) as [H0 H1].
  destruct (random g) as [u g']. cbn [fst] in *.
  assert (Hd : 0 <= inject_Z b - inject_Z a).
  { rewrite Zle_Qle in Hab. lra. }
  pose proof (Qmult_le_0_compat _ _ Hd H0) as Hlow.
  assert (Hhigh : (inject_Z b - inject_Z a) * u
                  <= (inject_Z b - inject_Z a) * 1).
  { rewrite !(Qmult_comm (inject_Z b - inject_Z a)).
    apply Qmult_le_compat_r; assumption. }
  lra.
Qed.

Lemma uniform_between (a b : Z) (g : Rng) (lo hi : Q) :
  (a <= b)%Z -> lo = inject_Z a -> hi = inject_Z b ->
  lo <= fst (uniform random lo hi g) /\ fst (uniform random lo hi g) <= hi.
Proof. intros Hab -> ->. apply uniform_range, Hab. Qed.

Lemma device_rows_in_range (ts : Z) (g : Rng) (dev : Z) :
  Forall in_generated_range (fst (device_rows random ts g dev)).
Proof.
  unfold device_rows.
  pose proof (uniform_between 20 30 g 20 30 ltac:(lia) eq_refl eq_refl)
    as [L1 U1].
  destruct (uniform random 20 30 g) as [x1 g1]. cbn [fst] in L1, U1.
  pose proof (uniform_between 40 60 g1 40 60 ltac:(lia) eq_refl eq_refl)
    as [L2 U2].
  destruct (uniform random 40 60 g1) as [x2 g2]. cbn [fst] in L2, U2.
  pose proof (uniform_between 1010 1020 g2 1010 1020 ltac:(lia)
                eq_refl eq_refl) as [L3 U3].
  destruct (uniform random 1010 1020 g2) as [x3 g3]. cbn [fst] in L3, U3.
  destruct (round2_bounds 20 30 x1 L1 U1) as [Lt Ut].
  destruct (round2_bounds 40 60 x2 L2 U2) as [Lh Uh].
  destruct (round2_bounds 1010 1020 x3 L3 U3) as [Lp Up].
  change (inject_Z 20) with 20 in *. change (inject_Z 30) with 30 in *.
  change (inject_Z 40) with 40 in *. change (inject_Z 60) with 60 in *.
  change (inject_Z 1010) with 1010 in *.
  change (inject_Z 1020) with 1020 in *.
  destruct (device_zone dev) as [loc zn].
  destruct (is_daytime ts) eqn:Hday.
  - pose proof (uniform_between 2 5 g3 2 5 ltac:(lia) eq_refl eq_refl)
      as [L4 U4].
    destruct (uniform random 2 5 g3) as [x4 g4]. cbn [fst] in L4, U4.
    pose proof (uniform_between 5 15 g4 5 15 ltac:(lia) eq_refl eq_refl)
      as [L5 U5].
    destruct (uniform random 5 15 g4) as [x5 g5]. cbn [fst] in L5, U5.
    cbn [fst].
    apply List.Forall_cons; [| apply List.Forall_cons;
      [| apply List.Forall_cons; [| apply List.Forall_nil]]];
      unfold in_generated_range;
      cbn [metric_name timestamp metric_value]; rewrite ?Hday.
    + rewrite py_max_positive by lra. split; lra.
    + rewrite py_min_below by lra. rewrite py_max_positive by lra.
      split; lra.
    + split; lra.
  - cbn [fst].
    apply List.Forall_cons; [| apply List.Forall_cons;
      [| apply List.Forall_cons; [| apply List.Forall_nil]]];
      unfold in_generated_range;
      cbn [metric_name timestamp metric_value]; rewrite ?Hday.
    + rewrite py_max_positive by lra. split; lra.
    + rewrite py_min_below by lra. rewrite py_max_positive by lra.
      split; lra.
    + split; lra.
Qed.

End Ranges.

(** X12: when [random()] stays between 0 and 1, a pressure lies in
    [1010, 1020]; at an hour from 6 to 18 a temperature lies in [22, 35]
    and a humidity in [25, 55], at another hour in [20, 30] and [40, 60].
    So the clamps of the temperature and of the humidity never change a
    value. *)
Theorem generated_values_in_range {Rng : Type} (random : Rng -> Q * Rng)
    (start_date end_date num_devices : Z) (g : Rng) :
  unit_interval random ->
  Forall in_generated_range
         (fst (generate_sample_data random start_date end_date num_devices g)).
Proof.
  intros Hunit. apply generate_sample_data_Forall.
  apply device_rows_in_range, Hunit.
Qed.

Lemma generated_values_in_range_witness :
  Forall in_generated_range
         (fst (generate_sample_data (const_random (3 # 4)) noon
                 (noon + 2 * us_per_minute) 2 0%nat)).
Proof.
  apply (generated_values_in_range (const_random (3 # 4)) noon
           (noon + 2 * us_per_minute) 2 0%nat).
  intros g. split; vm_compute; discriminate.
Defined.

(** *** Device labels *)

Section Labels.
Local Open Scope N_scope.

Lemma decimal_digits_value (fuel : nat) (n : N) (acc : str) :
  (N.to_nat n < fuel)%nat ->
  fold_left (fun a c => 10 * a + (c - 48)) (decimal_digits fuel n acc) 0
  = fold_left (fun a c => 10 * a + (c - 48)) acc n.
Proof.
  revert n acc. induction fuel as [| fuel IH]; intros n acc Hfuel; [lia |].
  cbn [decimal_digits].
  pose proof (N.div_mod n 10 ltac:(discriminate)) as Hdm.
  pose proof (N.mod_lt n 10 ltac:(discriminate)) as Hlt.
  pose proof (N.le_0_l (n mod 10)) as Hge.
  pose proof (N.le_0_l (n / 10)) as Hge'.
  destruct (N.eqb_spec (n / 10) 0) as [Hz | Hnz].
  - cbn [fold_left]. unfold digit. f_equal. lia.
  - rewrite IH.
    + cbn [fold_left]. unfold digit. f_equal. lia.
    + assert (n / 10 < n) by (apply N.div_lt; lia). lia.
Qed.

Lemma format_d_value (n : N) : decimal_value (format_d n) = n.
Proof.
  unfold decimal_value, format_d.
  rewrite decimal_digits_value by lia. reflexivity.
Qed.

Lemma zeros_value (k : nat) (ds : str) :
  decimal_value (repeat (digit 0) k ++ ds) = decimal_value ds.
Proof.
  unfold decimal_value. induction k as [| k IH]; [reflexivity | exact IH].
Qed.

Lemma format_03d_value (n : N) : decimal_value (format_03d n) = n.
Proof. unfold format_03d. rewrite zeros_value. apply format_d_value. Qed.

Lemma format_03d_length (n : N) : (3 <= length (format_03d n))%nat.
Proof.
  unfold format_03d. rewrite length_app, repeat_length. lia.
Qed.

Lemma format_03d_width (n : N) : n < 1000 -> length (format_03d n) = 3%nat.
Proof.
  intros Hn.
  assert (H : forallb (fun k => Nat.eqb (length (format_03d (N.of_nat k))) 3)
                      (seq 0 1000) = true) by (vm_compute; reflexivity).
  rewrite forallb_forall in H. specialize (H (N.to_nat n)).
  rewrite N2Nat.id in H. apply Nat.eqb_eq, H, in_seq. lia.
Qed.

End Labels.

(** X13: the label of a device is [device_] followed by the decimal
    digits of its number, at least three of them and exactly three below
    1000, and the digits give the number back: two devices never share a
    label. *)
Theorem device_labels_are_distinct (device1 device2 : Z) :
  (0 <= device1)%Z -> (0 <= device2)%Z ->
  (exists digits, device_label device1 = lit "device_" ++ digits
                  /\ decimal_value digits = Z.to_N device1
                  /\ (3 <= length digits)%nat
                  /\ ((device1 < 1000)%Z -> length digits = 3%nat))
  /\ (device_label device1 = device_label device2 -> device1 = device2).
Proof.
  intros H1 H2. split.
  - exists (format_03d (Z.to_N device1)).
    split; [reflexivity |]. split; [apply format_03d_value |].
    split; [apply format_03d_length |].
    intros Hlt. apply format_03d_width. lia.
  - unfold device_label. intros Heq. apply app_inv_head in Heq.
    apply (f_equal decimal_value) in Heq.
    rewrite !format_03d_value in Heq. lia.
Qed.

Lemma device_labels_are_distinct_witness :
  (exists digits, device_label 7 = lit "device_" ++ digits
                  /\ decimal_value digits = Z.to_N 7
                  /\ (3 <= length digits)%nat
                  /\ ((7 < 1000)%Z -> length digits = 3%nat))
  /\ (device_label 7 = device_label 7 -> 7%Z = 7%Z).
Proof.
  apply (device_labels_are_distinct 7 7); lia.
Defined.

(** *** The hours of the daytime *)

(** X19: the daytime adjustment applies to the instants whose time of day
    is from 06:00:00 up to, but not including, 19:00:00. *)
Theorem daytime_hours (timestamp : Z) :
  is_daytime timestamp = true
  <-> (6 * us_per_hour <= timestamp mod us_per_day < 19 * us_per_hour)%Z.
Proof.
  unfold is_daytime, hour, us_per_day, us_per_hour.
  rewrite andb_true_iff, !Z.leb_le.
  Z.to_euclidean_division_equations. lia.
Qed.

(** *** The prefix *)

Lemma startswith_refl (p : str) : startswith p p = true.
Proof.
  induction p as [| c p IH]; [reflexivity |].
  cbn [startswith]. rewrite N.eqb_refl. exact IH.
Qed.

Lemma endswith_app (s x : str) : endswith x (s ++ x) = true.
Proof.
  unfold endswith. rewrite rev_app_distr.
  apply startswith_app, startswith_refl.
Qed.

(** X14: whatever the environment, the prefix that [main] uses ends with
    [/]: it is the value of [S3_PREFIX], or [data/] when the variable is
    not set, as it is when that value ends with [/] and with one [/] added
    when it does not. *)
Theorem prefix_is_normalised (getenv : str -> option str) :
  let given := given_prefix getenv in
  let used := cfg_prefix (read_config getenv) in
  endswith (lit "/") used = true
  /\ (endswith (lit "/") given = true -> used = given)
  /\ (endswith (lit "/") given = false -> used = given ++ lit "/")
  /\ (getenv (lit "S3_PREFIX") = None -> used = lit "data/").
Proof.
  intros given used. subst used given.
  unfold read_config, given_prefix. cbn [cfg_prefix].
  destruct (endswith (lit "/")
              (default (lit "data/") (getenv (lit "S3_PREFIX")))) eqn:E;
    cbn [negb].
  - split; [exact E |]. split; [reflexivity |]. split; [discriminate |].
    intros Hnone. rewrite Hnone. reflexivity.
  - split; [apply endswith_app |]. split; [discriminate |].
    split; [reflexivity |].
    intros Hnone. rewrite Hnone in E. vm_compute in E. discriminate.
Qed.

Lemma prefix_shape (getenv : str -> option str) :
  cfg_prefix (read_config getenv) = given_prefix getenv
  \/ cfg_prefix (read_config getenv) = given_prefix getenv ++ lit "/".
Proof.
  unfold read_config, given_prefix. cbn [cfg_prefix].
  destruct (negb _); auto.
Qed.

(** *** Occurrences of a word in a key *)

Lemma startswith_app_inv (pat q s : str) :
  startswith pat (q ++ s) = true ->
  startswith pat q = true
  \/ ((length q < length pat)%nat
      /\ startswith (List.skipn (length q) pat) s = true).
Proof.
  revert q. induction pat as [| a pat IH]; intros q H; [left; reflexivity |].
  destruct q as [| b q].
  - right. split; [cbn; lia | exact H].
  - cbn [app startswith] in H. apply andb_true_iff in H as [Hab H].
    destruct (IH q H) as [Hq | [Hlen Hs]].
    + left. cbn [startswith]. rewrite Hab, Hq. reflexivity.
    + right. split; [cbn [length]; lia | exact Hs].
Qed.

Lemma contains_app_no_straddle (pat p s : str) :
  no_straddle pat s = true -> contains pat s = false ->
  contains pat (p ++ s) = contains pat p.
Proof.
  intros Hno Hs.
  assert (Hpat : startswith pat [] = false).
  { destruct pat as [| a pat]; [| reflexivity].
    destruct s; discriminate. }
  induction p as [| c p IH].
  - cbn [app]. rewrite Hs. cbn [contains]. rewrite Hpat. reflexivity.
  - cbn [app contains]. rewrite IH. f_equal.
    change (c :: p ++ s) with ((c :: p) ++ s).
    destruct (startswith pat (c :: p)) eqn:E.
    + apply startswith_app, E.
    + destruct (startswith pat ((c :: p) ++ s)) eqn:E'; [| reflexivity].
      apply startswith_app_inv in E' as [E' | [Hlen Hstart]];
        [congruence |].
      unfold no_straddle in Hno. rewrite forallb_forall in Hno.
      specialize (Hno (length (c :: p))).
      rewrite Hstart in Hno. cbn [negb] in Hno.
      symmetry. apply Hno, in_seq. cbn [length] in *. lia.
Qed.

(** A word in a key is a word in the prefix, for the words and names of
    [main]. *)
Lemma key_contains (pat name : str) :
  no_straddle pat (lit "/") = true -> contains pat (lit "/") = false ->
  no_straddle pat name = true -> contains pat name = false ->
  forall getenv,
    contains pat (given_prefix getenv) = false ->
    contains pat (cfg_prefix (read_config getenv) ++ name) = false.
Proof.
  intros H1 H2 H3 H4 getenv Hgiven.
  rewrite contains_app_no_straddle by assumption.
  destruct (prefix_shape getenv) as [-> | ->]; [exact Hgiven |].
  rewrite contains_app_no_straddle by assumption. exact Hgiven.
Qed.

(** *** The requests of a run *)

Section Sent.

Context {Rng : Type} (random : Rng -> Q * Rng).
Context (fails : put_request (list reading) -> bool).

Lemma requests_of_main_shape (getenv : str -> option str) (now : Z) (g : Rng) :
  let c := read_config getenv in
  exists df1 df2 df3 : list reading,
    requests_of_main random fails getenv now g
    = [ request_for c (cfg_prefix c ++ sample_name) df1;
        request_for c (cfg_prefix c ++ daily_name) df2;
        request_for c (cfg_prefix c ++ hourly_name) df3 ].
Proof.
  intros c. rewrite requests_of_main_unfold. fold c.
  unfold test_files. cbn [foldl].
  repeat match goal with
         | |- context [upload_one ?r ?t ?pt ?c ?e ?df (?g0, ?s0) ?f] =>
             let df' := fresh "df" in
             let g' := fresh "g" in
             destruct (upload_one_attempt r t pt c e df g0 s0 f)
               as (df' & g' & ->);
             cbn [snd fst key recording_put]
         end.
  eexists _, _, _. reflexivity.
Qed.

End Sent.

(** X15: when the value of [S3_PREFIX] (or [data/] when it is not set)
    contains neither [daily] nor [hourly], a run sends three requests, in
    this order: the 7-day, 5-device frame (151215 rows) under
    prefix + [sample-metrics.csv], a 1-day, 3-device frame (12969 rows)
    under prefix + [daily-metrics-2024-01-15.csv] and a 1-hour, 2-device
    frame (366 rows) under prefix + [hourly-metrics-2024-01-15.csv]; each
    frame is generated from the state in which the frame before left the
    random source. *)
Theorem clean_prefix_routes_datasets {Rng : Type} (random : Rng -> Q * Rng)
    (fails : put_request (list reading) -> bool)
    (getenv : str -> option str) (now : Z) (g : Rng) :
  contains (lit "daily") (given_prefix getenv) = false ->
  contains (lit "hourly") (given_prefix getenv) = false ->
  let c := read_config getenv in
  let p := cfg_prefix c in
  let full := generate_sample_data random (now - timedelta 7 0) now 5 g in
  let daily :=
    generate_sample_data random (now - timedelta 1 0) now 3 (snd full) in
  let hourly :=
    generate_sample_data random (now - timedelta 0 1) now 2 (snd daily) in
  requests_of_main random fails getenv now g
  = [ request_for c (p ++ sample_name) (fst full);
      request_for c (p ++ daily_name) (fst daily);
      request_for c (p ++ hourly_name) (fst hourly) ]
  /\ map request_view (requests_of_main random fails getenv now g)
     = [ (p ++ sample_name, 151215%Z); (p ++ daily_name, 12969%Z);
         (p ++ hourly_name, 366%Z) ].
Proof.
  intros Hdaily Hhourly c p full daily hourly.
  assert (Hsent : requests_of_main random fails getenv now g
                  = [ request_for c (p ++ sample_name) (fst full);
                      request_for c (p ++ daily_name) (fst daily);
                      request_for c (p ++ hourly_name) (fst hourly) ]).
  { apply requests_of_main_intended.
    - apply key_contains; try reflexivity. exact Hdaily.
    - apply key_contains; try reflexivity. exact Hhourly.
    - apply key_contains; try reflexivity. exact Hdaily. }
  split; [exact Hsent |]. rewrite Hsent.
  unfold request_view. cbn [map Key Body_ request_for].
  subst full daily hourly.
  rewrite !generate_sample_data_rows
    by (unfold timedelta, us_per_day, us_per_hour; lia).
  replace (now - (now - timedelta 7 0))%Z with (timedelta 7 0) by lia.
  replace (now - (now - timedelta 1 0))%Z with (timedelta 1 0) by lia.
  replace (now - (now - timedelta 0 1))%Z with (timedelta 0 1) by lia.
  reflexivity.
Qed.

Lemma clean_prefix_routes_datasets_witness :
  let getenv := env_with_prefix (lit "kestra/test") in
  let c := read_config getenv in
  let p := cfg_prefix c in
  let full :=
    generate_sample_data tape_random (noon - timedelta 7 0) noon 5 [] in
  let daily :=
    generate_sample_data tape_random (noon - timedelta 1 0) noon 3
                         (snd full) in
  let hourly :=
    generate_sample_data tape_random (noon - timedelta 0 1) noon 2
                         (snd daily) in
  requests_of_main tape_random (fun _ => false) getenv noon []
  = [ request_for c (p ++ sample_name) (fst full);
      request_for c (p ++ daily_name) (fst daily);
      request_for c (p ++ hourly_name) (fst hourly) ]
  /\ map request_view
         (requests_of_main tape_random (fun _ => false) getenv noon [])
     = [ (p ++ sample_name, 151215%Z); (p ++ daily_name, 12969%Z);
         (p ++ hourly_name, 366%Z) ].
Proof.
  apply (clean_prefix_routes_datasets tape_random (fun _ => false)
           (env_with_prefix (lit "kestra/test")) noon []);
    vm_compute; reflexivity.
Defined.

(** X16: the keys of the three requests depend on the environment only,
    not on the clock, the random numbers or the failures, and they differ
    from one another: a second run writes to the same three objects. *)
Theorem keys_fixed_by_environment {Rng1 Rng2 : Type}
    (random1 : Rng1 -> Q * Rng1) (random2 : Rng2 -> Q * Rng2)
    (fails1 fails2 : put_request (list reading) -> bool)
    (getenv : str -> option str) (now1 now2 : Z) (g1 : Rng1) (g2 : Rng2) :
  map Key (requests_of_main random1 fails1 getenv now1 g1)
  = map Key (requests_of_main random2 fails2 getenv now2 g2)
  /\ List.NoDup (map Key (requests_of_main random1 fails1 getenv now1 g1)).
Proof.
  rewrite !main_attempts_every_key. split; [reflexivity |].
  assert (Hne : forall p a b : str, a <> b -> p ++ a <> p ++ b).
  { intros p a b Hab Heq. apply app_inv_head in Heq. contradiction. }
  repeat constructor; cbn [In]; intros H;
    repeat destruct H as [H | H]; try contradiction;
    revert H; apply Hne; vm_compute; discriminate.
Qed.

(** X17: every request of a run carries the content type [text/csv], the
    bucket and the credentials exactly as the environment gives them
    (a missing [S3_BUCKET_NAME] is passed on as [None], not checked), and
    the region of [AWS_REGION], or [us-east-1] when it is not set. *)
Theorem requests_carry_environment {Rng : Type} (random : Rng -> Q * Rng)
    (fails : put_request (list reading) -> bool)
    (getenv : str -> option str) (now : Z) (g : Rng) :
  length (requests_of_main random fails getenv now g) = 3%nat
  /\ Forall (carries_settings getenv)
            (requests_of_main random fails getenv now g).
Proof.
  destruct (requests_of_main_shape random fails getenv now g)
    as (df1 & df2 & df3 & ->).
  split; [reflexivity |].
  repeat constructor.
Qed.

End UploaderFacts.
